(** * TCCompare: the diff engine of the HTML version comparator

    A shallow embedding of the core of the comparator:
    - [getCleanTextContent], [getFirstTwoLinesKey] (text normalizer),
    - [processRawData] (record reconstruction with continuation merging),
    - [areRowsEqual] and [performLcsDiff] (row matcher and sequence aligner),
    - [createDiff] and [TextDiff] (word diff engine),
    followed by the properties the specification states about them.

    JavaScript strings are modelled as [string]: a sequence of code units,
    here restricted to the 8-bit range.  A record ([RowData]) is a JavaScript
    object used as a map from column name to cell markup: [gmap string string].
    The cells of a raw grid are strings (the table parser stores
    [innerHTML || ""] for every cell). *)

From Stdlib Require Import Ascii String List Arith Lia Bool.
From stdpp Require Import base option list strings gmap pretty.

(** ** JavaScript primitives on strings *)

Module Js.

(** Code units that [String.prototype.trim] removes and that [\s] matches
    (WhiteSpace and LineTerminator), within the 8-bit range:
    TAB, LF, VT, FF, CR, SP and NBSP. *)
Definition isWhiteSpace (c : ascii) : bool :=
  match c with
  | "009" | "010" | "011" | "012" | "013" | " " | "160" => true
  | _ => false
  end%char.

Fixpoint trimStart (s : string) : string :=
  match s with
  | EmptyString => EmptyString
  | String c rest => if isWhiteSpace c then trimStart rest else s
  end.

Fixpoint trimEnd (s : string) : string :=
  match s with
  | EmptyString => EmptyString
  | String c rest =>
      match trimEnd rest with
      | EmptyString => if isWhiteSpace c then EmptyString else String c EmptyString
      | r => String c r
      end
  end.

(** [s.trim()] *)
Definition trim (s : string) : string := trimEnd (trimStart s).

(** A string that does not start with white space. *)
Definition headed (s : string) : Prop :=
  match s with
  | EmptyString => True
  | String c _ => isWhiteSpace c = false
  end.

(** [s === ''] *)
Definition isEmpty (s : string) : bool :=
  match s with EmptyString => true | _ => false end.

(** The values an expression such as [!a && b && !c] can take when [a], [b]
    and [c] are strings: [&&] returns one of its operands, so the result is
    a boolean or a string. *)
Inductive value : Type :=
| VBool (b : bool)
| VStr (s : string).

(** ToBoolean *)
Definition truthy (v : value) : bool :=
  match v with
  | VBool b => b
  | VStr s => negb (isEmpty s)
  end.

(** [!v] *)
Definition not (v : value) : value := VBool (negb (truthy v)).

(** [a && b] *)
Definition and (a b : value) : value := if truthy a then b else a.

(** [a === b]: values of different types are never strictly equal. *)
Definition strictEq (a b : value) : bool :=
  match a, b with
  | VBool x, VBool y => Bool.eqb x y
  | VStr x, VStr y => String.eqb x y
  | _, _ => false
  end.

(** [s.startsWith(p)] *)
Fixpoint startsWith (p s : string) : bool :=
  match p, s with
  | EmptyString, _ => true
  | String a p', String b s' => Ascii.eqb a b && startsWith p' s'
  | String _ _, EmptyString => false
  end.

Fixpoint take (n : nat) (s : string) : string :=
  match n, s with
  | S k, String c rest => String c (take k rest)
  | _, _ => EmptyString
  end.

Fixpoint drop (n : nat) (s : string) : string :=
  match n, s with
  | S k, String _ rest => drop k rest
  | _, _ => s
  end.

(** [parts.join(sep)] *)
Fixpoint join (sep : string) (parts : list string) : string :=
  match parts with
  | [] => EmptyString
  | [x] => x
  | x :: rest => x +:+ sep +:+ join sep rest
  end.

End Js.

(** ** Data model *)

(** [ChangeType] *)
Inductive ChangeType : Type := ADDED | DELETED | MODIFIED | UNCHANGED.

Global Instance ChangeType_eq_dec : EqDecision ChangeType.
Proof. solve_decision. Defined.

(** [type mode = 'step' | 'content'] *)
Inductive Mode : Type := step | content.

(** [RowData]: column name to cell markup. *)
Abbreviation RowData := (gmap string string).

(** [String(row[k] || '')]: a missing column and an empty cell both read as
    the empty string. *)
Definition field (row : RowData) (k : string) : string :=
  default EmptyString (row !! k).

(** ** Text normalizer *)

(** The markup parser is the browser's, not the program's: the program only
    sets [innerHTML] of a detached [div] and reads [textContent] back.  The
    development is parametric in that function ([textContent] in the section
    below).  [stripTags] is a reference instance used to evaluate the engine
    on concrete fragments: it drops every [<...>] run and keeps the rest,
    which is what the browser returns on fragments made of plain text and
    simple tags (no entities, comments or unterminated tags). *)
Fixpoint stripTagsFrom (inTag : bool) (s : string) : string :=
  match s with
  | EmptyString => EmptyString
  | String c rest =>
      if inTag then stripTagsFrom (negb (Ascii.eqb c ">")) rest
      else if Ascii.eqb c "<" then stripTagsFrom true rest
      else String c (stripTagsFrom false rest)
  end.

Definition stripTags (s : string) : string := stripTagsFrom false s.

(** The regular expression [/<br\s*\/?>|<\/p>|<\/div>/gi] of
    [getFirstTwoLinesKey]. *)
Module LineBreak.

(** Case-insensitive match of one code unit against an ASCII letter of the
    pattern (flag [i]). *)
Definition upper (c : ascii) : ascii :=
  let n := nat_of_ascii c in
  if (97 <=? n) && (n <=? 122) then ascii_of_nat (n - 32) else c.

Fixpoint startsWithIgnoreCase (p s : string) : bool :=
  match p, s with
  | EmptyString, _ => true
  | String a p', String b s' =>
      Ascii.eqb (upper a) (upper b) && startsWithIgnoreCase p' s'
  | String _ _, EmptyString => false
  end.

(** Length of the longest run of [\s] at the start of [s]. *)
Fixpoint spaces (s : string) : nat :=
  match s with
  | String c rest => if Js.isWhiteSpace c then S (spaces rest) else 0
  | EmptyString => 0
  end.

(** [<br\s*\/?>] at the start of [s]: the length of the match. *)
Definition matchBr (s : string) : option nat :=
  if startsWithIgnoreCase "<br" s then
    let k := spaces (Js.drop 3 s) in
    match Js.drop (3 + k) s with
    | String "/"%char (String ">"%char _) => Some (3 + k + 2)
    | String ">"%char _ => Some (3 + k + 1)
    | _ => None
    end
  else None.

(** The whole alternation at the start of [s], alternatives in order. *)
Definition matchAt (s : string) : option nat :=
  match matchBr s with
  | Some n => Some n
  | None =>
      if startsWithIgnoreCase "</p>" s then Some 4
      else if startsWithIgnoreCase "</div>" s then Some 6
      else None
  end.

Definition separator : string := "||LINE_BREAK||".

(** [s.replace(re, separator)] with flag [g]: scan from the left; [skip] is
    the number of code units of the current match still to be dropped. *)
Fixpoint replaceFrom (skip : nat) (s : string) : string :=
  match s with
  | EmptyString => EmptyString
  | String c rest =>
      match skip with
      | S k => replaceFrom k rest
      | O =>
          match matchAt s with
          | Some n => separator +:+ replaceFrom (n - 1) rest
          | None => String c (replaceFrom 0 rest)
          end
      end
  end.

Definition replaceAll (s : string) : string := replaceFrom 0 s.

(** [s.split(separator)]: [cur] is the piece being collected. *)
Fixpoint splitFrom (skip : nat) (cur : string) (s : string) : list string :=
  match s with
  | EmptyString => [cur]
  | String c rest =>
      match skip with
      | S k => splitFrom k cur rest
      | O =>
          if Js.startsWith separator s
          then cur :: splitFrom (String.length separator - 1) EmptyString rest
          else splitFrom 0 (cur +:+ String c EmptyString) rest
      end
  end.

Definition split (s : string) : list string := splitFrom 0 EmptyString s.

End LineBreak.

(** ** The two loops shared by the aligner and the word diff

    [performLcsDiff] and [createDiff] run the same table-filling loop and the
    same backtracking loop; they differ in the oracle that compares two
    elements and in the entry they [unshift].  The loops are modelled once,
    over an element type [A] and an entry type [R]. *)
Module Lcs.
Section Loops.

Context {A R : Type}.

(** The equality oracle. *)
Variable equal : A -> A -> bool.

(** The entries put in front of the result: on a match (with the loop
    indices [i], [j] and both current elements), on an addition ([j] and
    the revised element), and on a deletion ([i] and the original
    element).  A current element is [None] where the program has [null]. *)
Variable onMatch : nat -> nat -> option A -> option A -> R.
Variable onAdded : nat -> option A -> R.
Variable onDeleted : nat -> option A -> R.

Variables original revised : list A.

(** The oracle applied to two array reads. *)
Definition matches (a b : option A) : bool :=
  match a, b with
  | Some x, Some y => equal x y
  | _, _ => false
  end.

(** [dp[i][j]]; every read of the program is inside the table. *)
Definition cell (dp : list (list nat)) (i j : nat) : nat :=
  default 0 (dp !! i ≫= (.!! j)).

(** [dp[i][j] = v] *)
Definition setCell (dp : list (list nat)) (i j v : nat) : list (list nat) :=
  match dp !! i with
  | Some row => <[i := <[j := v]> row]> dp
  | None => dp
  end.

(** The body of the inner [for] loop. *)
Definition fillCell (dp : list (list nat)) (i j : nat) : list (list nat) :=
  if matches (original !! (i - 1)) (revised !! (j - 1))
  then setCell dp i j (cell dp (i - 1) (j - 1) + 1)
  else setCell dp i j (Nat.max (cell dp (i - 1) j) (cell dp i (j - 1))).

(** The table after both [for] loops. *)
Definition table : list (list nat) :=
  let m := length original in
  let n := length revised in
  foldl (fun dp i => foldl (fun dp j => fillCell dp i j) dp (seq 1 n))
        (replicate (m + 1) (replicate (n + 1) 0))
        (seq 1 m).

(** The state of the backtracking loop: the two indices and the result
    built so far. *)
Record state : Type := State { idxI : nat; idxJ : nat; out : list R }.

(** One iteration of [while (i > 0 || j > 0)].  [None]: the loop is left
    (the condition fails, or [break]). *)
Definition backtrackStep (dp : list (list nat)) (st : state) : option state :=
  let i := idxI st in
  let j := idxJ st in
  if (0 <? i) || (0 <? j) then
    let originalRow := if 0 <? i then original !! (i - 1) else None in
    let revisedRow := if 0 <? j then revised !! (j - 1) else None in
    if (0 <? i) && (0 <? j) && matches originalRow revisedRow then
      Some (State (i - 1) (j - 1) (onMatch i j originalRow revisedRow :: out st))
    else if (0 <? j) && ((i =? 0) || (cell dp (i - 1) j <=? cell dp i (j - 1))) then
      Some (State i (j - 1) (onAdded j revisedRow :: out st))
    else if (0 <? i) && ((j =? 0) || (cell dp i (j - 1) <? cell dp (i - 1) j)) then
      Some (State (i - 1) j (onDeleted i originalRow :: out st))
    else None
  else None.

(** The [while] loop; each iteration decreases [i + j], so [i + j]
    iterations are enough ([LcsFacts.backtrackLoop_finished]). *)
Fixpoint backtrackLoop (fuel : nat) (dp : list (list nat)) (st : state) : state :=
  match fuel with
  | O => st
  | S fuel' =>
      match backtrackStep dp st with
      | Some st' => backtrackLoop fuel' dp st'
      | None => st
      end
  end.

(** What a cell is meant to hold.  [lcsRev xs ys]: the length of a longest
    common subsequence, under the oracle, of two sequences given last
    element first. *)
Fixpoint lcsRev (xs ys : list A) : nat :=
  match xs with
  | [] => 0
  | x :: xs' =>
      (fix inner (ys : list A) : nat :=
         match ys with
         | [] => 0
         | y :: ys' =>
             if equal x y then lcsRev xs' ys' + 1
             else Nat.max (lcsRev xs' ys) (inner ys')
         end) ys
  end.

(** The count for the first [i] original and the first [j] revised
    elements ([LcsFacts.table_count]: it is what [dp[i][j]] holds). *)
Definition count (i j : nat) : nat :=
  lcsRev (reverse (take i original)) (reverse (take j revised)).

(** Both loops, from [i = m], [j = n] and the empty result. *)
Definition run : list R :=
  let m := length original in
  let n := length revised in
  out (backtrackLoop (m + n) table (State m n [])).

End Loops.

(** A table of [m] rows of [n] cells. *)
Definition shaped (m n : nat) (dp : list (list nat)) : Prop :=
  length dp = m /\ Forall (fun row => length row = n) dp.

(** The cells that hold their count once the loops have filled the table up
    to row [i], column [j]: column 0, the rows above [i], and row [i] up to
    column [j]. *)
Definition filledTo {A : Type} (equal : A -> A -> bool) (original revised : list A)
    (i j : nat) (dp : list (list nat)) : Prop :=
  shaped (length original + 1) (length revised + 1) dp /\
  forall i' j', i' <= length original -> j' <= length revised ->
    j' = 0 \/ i' < i \/ (i' = i /\ j' <= j) ->
    cell dp i' j' = count equal original revised i' j'.

End Lcs.

(** ** The tokenizer of the word diff: [s.split(/(<[^>]+>|\s+)/)] *)
Module Tokens.

(** Length of the longest run of code units other than [>]. *)
Fixpoint notGt (s : string) : nat :=
  match s with
  | String c rest => if Ascii.eqb c ">" then 0 else S (notGt rest)
  | EmptyString => 0
  end.

(** [<[^>]+>] at the start of [s]: the length of the match. *)
Definition matchTag (s : string) : option nat :=
  match s with
  | String "<"%char rest =>
      let k := notGt rest in
      match k, Js.drop k rest with
      | S _, String ">"%char _ => Some (k + 2)
      | _, _ => None
      end
  | _ => None
  end.

(** [<[^>]+>|\s+] at the start of [s]. *)
Definition matchAt (s : string) : option nat :=
  match matchTag s with
  | Some n => Some n
  | None =>
      match LineBreak.spaces s with
      | O => None
      | n => Some n
      end
  end.

(** The split loop: [cur] is the text since the end of the last match, and
    [skip] the number of code units of the current match still to pass.
    A match closes [cur] and is itself kept (it is the capture group). *)
Fixpoint splitFrom (skip : nat) (cur : string) (s : string) : list string :=
  match s with
  | EmptyString => [cur]
  | String c rest =>
      match skip with
      | S k => splitFrom k cur rest
      | O =>
          match matchAt s with
          | Some n => cur :: Js.take n s :: splitFrom (n - 1) EmptyString rest
          | None => splitFrom 0 (cur +:+ String c EmptyString) rest
          end
      end
  end.

Definition split (s : string) : list string := splitFrom 0 EmptyString s.

(** [s.split(splitRegex).filter(Boolean)] *)
Definition words (s : string) : list string :=
  filter (fun w => Js.isEmpty w = false) (split s).

End Tokens.

(** ** [JSON.stringify] of [{ proc: p, outcome: o }]

    A property whose value is [undefined] is left out; a string is quoted
    with the escapes of [QuoteJSONString]. *)
Module Json.

Definition hexDigit (n : nat) : ascii :=
  if n <? 10 then ascii_of_nat (48 + n) else ascii_of_nat (87 + n).

Definition escape (c : ascii) : string :=
  let n := nat_of_ascii c in
  if n =? 8 then "\b"
  else if n =? 9 then "\t"
  else if n =? 10 then "\n"
  else if n =? 12 then "\f"
  else if n =? 13 then "\r"
  else if n =? 34 then String "\" (String c EmptyString)
  else if n =? 92 then "\\"
  else if n <? 32 then
    "\u00" +:+ String (hexDigit (n / 16)) (String (hexDigit (n mod 16)) EmptyString)
  else String c EmptyString.

Fixpoint escapeAll (s : string) : string :=
  match s with
  | EmptyString => EmptyString
  | String c rest => escape c +:+ escapeAll rest
  end.

Definition dquote : string := String (ascii_of_nat 34) EmptyString.

Definition quote (s : string) : string := dquote +:+ escapeAll s +:+ dquote.

Definition property (name : string) (v : option string) : list string :=
  match v with
  | Some s => [quote name +:+ ":" +:+ quote s]
  | None => []
  end.

Definition stringifyRelevant (proc outcome : option string) : string :=
  "{" +:+ Js.join "," (property "proc" proc ++ property "outcome" outcome) +:+ "}".

End Json.

(** A call either returns or throws [new Error(message)]. *)
Inductive outcome (T : Type) : Type :=
| Returns (v : T)
| Throws (message : string).
Global Arguments Returns {T} v.
Global Arguments Throws {T} message.

Section Engine.

(** [textContent html]: the [textContent] of a detached [div] after
    [div.innerHTML = html]. *)
Variable textContent : string -> string.

(** [getCleanTextContent].  Cells are strings, so the [typeof] test only
    rejects the empty string; assigning [innerHTML] of a detached [div]
    does not throw, so the [catch] branch is not reachable. *)
Definition getCleanTextContent (htmlString : string) : string :=
  if Js.isEmpty htmlString then EmptyString
  else Js.trim (textContent htmlString).

(** [getFirstTwoLinesKey] *)
Definition getFirstTwoLinesKey (htmlString : string) : string :=
  if Js.isEmpty htmlString then EmptyString
  else
    let withSeparators := LineBreak.replaceAll htmlString in
    let text := textContent withSeparators in
    let lines :=
      filter (fun line => Js.isEmpty line = false)
             (map Js.trim (LineBreak.split text)) in
    Js.trim (Js.join " " (firstn 2 lines)).

(** *** Record reconstruction: [processRawData] *)

Definition requiredHeaders : list string :=
  ["Step Order"; "Procedure"; "Expected Outcome"].

(** [potentialHeaders.includes(h)] *)
Definition includes (l : list string) (h : string) : bool :=
  existsb (String.eqb h) l.

(** [requiredHeaders.every(h => potentialHeaders.includes(h))] for the
    normalized cells of one row. *)
Definition isHeaderRow (row : list string) : bool :=
  forallb (includes (map getCleanTextContent row)) requiredHeaders.

(** The header search loop, from row [i] on: the index of the first
    qualifying row and its normalized cells. *)
Fixpoint findHeader (i : nat) (rows : list (list string)) : option (nat * list string) :=
  match rows with
  | [] => None
  | row :: rest =>
      if isHeaderRow row then Some (i, map getCleanTextContent row)
      else findHeader (S i) rest
  end.

Definition headerNotFound : string :=
  "Could not find the table header row containing " +:+ Json.dquote +:+
  Js.join ", " requiredHeaders +:+ Json.dquote +:+ ".".

(** [rowObject[header] = rowArray[index] ?? ""] for every header, in order:
    a later duplicate of a header overwrites the earlier one.  Headers are
    ordinary property names (the accessor name [__proto__] is left out of
    the model). *)
Definition toRowObject (cleanHeaders : list string) (rowArray : list string) : RowData :=
  foldl (fun (rowObject : RowData) (h : nat * string) =>
           <[h.2 := default EmptyString (rowArray !! h.1)]> rowObject)
        ∅ (imap pair cleanHeaders).

(** The merge loop mutates row objects that are already in [mergedRows]
    through the alias [lastParentRow].  Row objects live in [heap] (the
    object of the [r]-th data row at address [r]); [mergedRows] and
    [lastParentRow] hold addresses. *)
Record mergeState : Type := MergeState {
  heap : list RowData;
  mergedRows : list nat;
  lastParentRow : option nat
}.

(** The body of [for (const header of cleanHeaders)] for the continuation
    row at [r] and the parent at [parent]. *)
Definition appendField (r parent : nat) (h : list RowData) (header : string) : list RowData :=
  match (h !!! r) !! header with
  | Some contentToAppend =>
      if negb (Js.isEmpty contentToAppend) &&
         negb (Js.isEmpty (getCleanTextContent contentToAppend))
      then
        let existingContent := default EmptyString ((h !!! parent) !! header) in
        <[parent :=
            <[header := if Js.isEmpty existingContent then contentToAppend
                        else existingContent +:+ contentToAppend]> (h !!! parent)]> h
      else h
  | None => h
  end.

(** The body of [for (const row of structuredData)], for the row at
    address [r]. *)
Definition mergeStep (cleanHeaders : list string) (st : mergeState) (r : nat) : mergeState :=
  let row := heap st !!! r in
  let stepOrderText := getCleanTextContent (field row "Step Order") in
  let procedureText := getCleanTextContent (field row "Procedure") in
  let isCategoryRow :=
    Js.isEmpty stepOrderText &&
    negb (Js.isEmpty (Js.trim procedureText)) &&
    Js.isEmpty (getCleanTextContent (field row "Expected Outcome")) in
  let isTestStepRow := negb (Js.isEmpty (Js.trim stepOrderText)) in
  if isCategoryRow then
    MergeState (heap st) (mergedRows st ++ [r]) None
  else if isTestStepRow then
    MergeState (heap st) (mergedRows st ++ [r]) (Some r)
  else
    match lastParentRow st with
    | Some parent =>
        MergeState (foldl (appendField r parent) (heap st) cleanHeaders)
                   (mergedRows st) (Some parent)
    | None =>
        MergeState (heap st) (mergedRows st ++ [r]) None
    end.

Definition processRawData (rawData : list (list string)) : outcome (list RowData) :=
  match rawData with
  | [] => Returns []
  | _ =>
      match findHeader 0 rawData with
      | None => Throws headerNotFound
      | Some (headerIndex, cleanHeaders) =>
          let dataRows := drop (headerIndex + 1) rawData in
          let structuredData := map (toRowObject cleanHeaders) dataRows in
          let final :=
            foldl (mergeStep cleanHeaders)
                  (MergeState structuredData [] None)
                  (seq 0 (length structuredData)) in
          Returns (map (fun r => heap final !!! r) (mergedRows final))
      end
  end.

(** *** Row matcher: [areRowsEqual] *)

(** [!clean(row['Step Order']) && clean(row['Procedure']) &&
    !clean(row['Expected Outcome'])], as the JavaScript value it is. *)
Definition isCategory (row : RowData) : Js.value :=
  Js.and
    (Js.and (Js.not (Js.VStr (getCleanTextContent (field row "Step Order"))))
            (Js.VStr (getCleanTextContent (field row "Procedure"))))
    (Js.not (Js.VStr (getCleanTextContent (field row "Expected Outcome")))).

Definition areRowsEqual (mode : Mode) (rowA rowB : RowData) : bool :=
  let isCategoryA := isCategory rowA in
  let isCategoryB := isCategory rowB in
  if Js.truthy (Js.and isCategoryA isCategoryB) then
    String.eqb (getCleanTextContent (field rowA "Procedure"))
               (getCleanTextContent (field rowB "Procedure"))
  else if negb (Js.strictEq isCategoryA isCategoryB) then false
  else
    let procA := field rowA "Procedure" in
    let procB := field rowB "Procedure" in
    let stepA := Js.trim (field rowA "Step Order") in
    let stepB := Js.trim (field rowB "Step Order") in
    match mode with
    | step => String.eqb stepA stepB
    | content =>
        let keyA := getFirstTwoLinesKey procA in
        let keyB := getFirstTwoLinesKey procB in
        negb (Js.isEmpty (Js.trim keyA)) && String.eqb keyA keyB
    end.

(** *** Sequence aligner: [performLcsDiff] *)

(** [ComparisonRowPair] *)
Record ComparisonRowPair : Type := RowPair {
  status : ChangeType;
  originalOf : option RowData;
  revisedOf : option RowData;
  key : string
}.

(** The status of a matched pair. *)
Definition matchStatus (mode : Mode) (originalRow revisedRow : RowData) : ChangeType :=
  if negb (Js.truthy (isCategory originalRow)) then
    match mode with
    | step =>
        let isContentEqual :=
          String.eqb
            (Json.stringifyRelevant (originalRow !! "Procedure")
                                    (originalRow !! "Expected Outcome"))
            (Json.stringifyRelevant (revisedRow !! "Procedure")
                                    (revisedRow !! "Expected Outcome")) in
        if isContentEqual then UNCHANGED else MODIFIED
    | content =>
        let originalProc := Js.trim (field originalRow "Procedure") in
        let revisedProc := Js.trim (field revisedRow "Procedure") in
        let originalOutcome := Js.trim (field originalRow "Expected Outcome") in
        let revisedOutcome := Js.trim (field revisedRow "Expected Outcome") in
        let originalStep := Js.trim (field originalRow "Step Order") in
        let revisedStep := Js.trim (field revisedRow "Step Order") in
        let isFullyEqual :=
          String.eqb originalProc revisedProc &&
          String.eqb originalOutcome revisedOutcome &&
          String.eqb originalStep revisedStep in
        if isFullyEqual then UNCHANGED else MODIFIED
    end
  else UNCHANGED.

(** The three [pairedRows.unshift(...)]. A match is only reached with both
    rows present. *)
Definition matchedPair (mode : Mode) (i j : nat) (originalRow revisedRow : option RowData)
  : ComparisonRowPair :=
  RowPair (match originalRow, revisedRow with
           | Some a, Some b => matchStatus mode a b
           | _, _ => UNCHANGED
           end)
          originalRow revisedRow
          ("match-" +:+ pretty i +:+ "-" +:+ pretty j).

Definition addedPair (j : nat) (revisedRow : option RowData) : ComparisonRowPair :=
  RowPair ADDED None revisedRow ("revised-" +:+ pretty j).

Definition deletedPair (i : nat) (originalRow : option RowData) : ComparisonRowPair :=
  RowPair DELETED originalRow None ("original-" +:+ pretty i).

Record DiffSummary : Type := Summary { added : nat; deleted : nat; modified : nat }.

Definition countStatus (s : ChangeType) (rows : list ComparisonRowPair) : nat :=
  length (filter (fun p => status p = s) rows).

(** [ComparisonOutput], without the [headers] of the result (the union of
    the key lists of the two first rows, which depends on the insertion
    order of the keys and is used for display only). *)
Record ComparisonOutput : Type := Output {
  rows : list ComparisonRowPair;
  diffSummary : DiffSummary
}.

Definition pairedRows (mode : Mode) (original revised : list RowData) : list ComparisonRowPair :=
  Lcs.run (areRowsEqual mode) (matchedPair mode) addedPair deletedPair original revised.

Definition performLcsDiff (original revised : list RowData) (mode : Mode) : ComparisonOutput :=
  let paired := pairedRows mode original revised in
  Output paired
         (Summary (countStatus ADDED paired)
                  (countStatus DELETED paired)
                  (countStatus MODIFIED paired)).

End Engine.

(** ** Word diff engine: [createDiff] and [TextDiff] *)

(** [enum DiffType] *)
Module DiffType.
Inductive t : Type := COMMON | ADDED | DELETED.
End DiffType.

Global Instance DiffType_eq_dec : EqDecision DiffType.t.
Proof. solve_decision. Defined.

Record DiffSegment : Type := Segment { type : DiffType.t; value : string }.

(** [words[k]] on a present element. *)
Definition wordOf (w : option string) : string := default EmptyString w.

(** The three [diff.unshift(...)]. *)
Definition commonSegment (i j : nat) (originalWord revisedWord : option string) : DiffSegment :=
  Segment DiffType.COMMON (wordOf originalWord).

Definition addedSegment (j : nat) (revisedWord : option string) : DiffSegment :=
  Segment DiffType.ADDED (wordOf revisedWord).

Definition deletedSegment (i : nat) (originalWord : option string) : DiffSegment :=
  Segment DiffType.DELETED (wordOf originalWord).

Definition createDiff (original revised : string) : list DiffSegment :=
  let originalWords := Tokens.words original in
  let revisedWords := Tokens.words revised in
  Lcs.run String.eqb commonSegment addedSegment deletedSegment
          originalWords revisedWords.

(** What [TextDiff] renders: a [span] or a [del] whose content is set from
    markup ([dangerouslySetInnerHTML]), with its React key and class name,
    or a [span] around a list of children. *)
#[warnings="-register-all"]
Inductive Element : Type :=
| SpanHtml (key : option nat) (className : option string) (html : string)
| DelHtml (key : option nat) (className : option string) (html : string)
| SpanOf (children : list Element).

(** The body of [diffs.map((part, index) => ...)]. *)
Definition renderPart (index : nat) (part : DiffSegment) : Element :=
  match type part with
  | DiffType.ADDED =>
      SpanHtml (Some index) (Some "bg-green-200 text-black rounded-[3px]") (value part)
  | DiffType.DELETED =>
      DelHtml (Some index) (Some "bg-red-200/60 rounded-[3px] decoration-red-400") (value part)
  | DiffType.COMMON => SpanHtml (Some index) None (value part)
  end.

Definition TextDiff (originalText revisedText : string) : Element :=
  if String.eqb originalText revisedText then SpanHtml None None originalText
  else SpanOf (imap renderPart (createDiff originalText revisedText)).


(** The table and one backtracking iteration of [createDiff]. *)
Definition wordTable (original revised : string) : list (list nat) :=
  Lcs.table String.eqb (Tokens.words original) (Tokens.words revised).

Definition wordStep (original revised : string)
  : Lcs.state (R := DiffSegment) -> option Lcs.state :=
  Lcs.backtrackStep String.eqb commonSegment addedSegment deletedSegment
    (Tokens.words original) (Tokens.words revised)
    (wordTable original revised).

(** ** Notions used in the statements *)

Section Notions.

Variable textContent : string -> string.

(** A category record in the words of the specification: normalized
    identifier empty, normalized procedure non-empty, normalized outcome
    empty.  [isCategory_category] relates it to the flag [isCategory] that
    the program computes. *)
Definition category (row : RowData) : bool :=
  Js.isEmpty (getCleanTextContent textContent (field row "Step Order")) &&
  negb (Js.isEmpty (getCleanTextContent textContent (field row "Procedure"))) &&
  Js.isEmpty (getCleanTextContent textContent (field row "Expected Outcome")).

(** A record whose normalized identifier and normalized procedure are
    both empty. *)
Definition blankHead (row : RowData) : bool :=
  Js.isEmpty (getCleanTextContent textContent (field row "Step Order")) &&
  Js.isEmpty (getCleanTextContent textContent (field row "Procedure")).

(** A grid without a header row. *)
Definition noHeaderRow (rawData : list (list string)) : Prop :=
  forall row, row ∈ rawData -> isHeaderRow textContent row = false.

(** The table and one backtracking iteration of [performLcsDiff]. *)
Definition alignerTable (mode : Mode) (original revised : list RowData) : list (list nat) :=
  Lcs.table (areRowsEqual textContent mode) original revised.

Definition alignerStep (mode : Mode) (original revised : list RowData)
  : Lcs.state (R := ComparisonRowPair) -> option Lcs.state :=
  Lcs.backtrackStep (areRowsEqual textContent mode) (matchedPair textContent mode)
    addedPair deletedPair original revised (alignerTable mode original revised).

End Notions.

(** ** Sample data *)

(** A record with the three required columns. *)
Definition record (id proc outcome : string) : RowData :=
  <["Step Order" := id]> (<["Procedure" := proc]> (<["Expected Outcome" := outcome]> ∅)).

Definition headerRow : list string := ["Step Order"; "Procedure"; "Expected Outcome"].

(** The grid of the continuation scenario with a middle row that has a
    procedure only, and the same grid with a middle row that also has an
    outcome. *)
Definition gridProcedureOnly : list (list string) :=
  [headerRow; ["1"; "A"; ""]; [""; "B"; ""]; ["2"; "C"; ""]].

Definition gridContinuation : list (list string) :=
  [headerRow; ["1"; "A"; ""]; [""; "B"; "X"]; ["2"; "C"; ""]].

(** The plain texts of the two grids. *)
Definition gridTexts : list string :=
  ["Step Order"; "Procedure"; "Expected Outcome"; "1"; "2"; "A"; "B"; "C"; "X"].

(** Step records: a step with identifier 1; the same with the identifier in
    bold; another step with the identifier between spaces; the first step
    with the identifier between spaces; the first step with identifier 2. *)
Definition stepOne : RowData := record "1" "Open the app" "It opens".
Definition stepOneBold : RowData := record "<b>1</b>" "Open the app" "It opens".
Definition stepOnePadded : RowData := record " 1 " "Close the app" "It closes".
Definition stepOneSpaced : RowData := record " 1 " "Open the app" "It opens".
Definition stepTwo : RowData := record "2" "Open the app" "It opens".

(** A category record, and two records without identifier that are not
    categories: one with an outcome only, one with a procedure and an
    outcome. *)
Definition sectionRow : RowData := record "" "Section X" "".
Definition outcomeOnly : RowData := record "" "" "x".
Definition orphan : RowData := record "" "p" "y".

(** ** Notions used in the further properties *)

(** All code units of the model. *)
Definition allAscii : list ascii := map ascii_of_nat (seq 0 256).

(** One of two strings starts with the other. *)
Definition prefixCompatible (s t : string) : bool :=
  Js.startsWith s t || Js.startsWith t s.

(** No escape of a code unit starts with, or is the start of, the escape of
    another code unit or the closing quote.  (A closed boolean, checked by
    evaluation in [JsonFacts.escapesPrefixFree_true].) *)
Definition escapesPrefixFree : bool :=
  forallb (fun c =>
             negb (prefixCompatible Json.dquote (Json.escape c)) &&
             forallb (fun c' =>
                        implb (prefixCompatible (Json.escape c) (Json.escape c'))
                              (Ascii.eqb c c'))
                     allAscii)
          allAscii.

(** The markup of a rendered element, read without the elements that [skip]
    selects. *)
Definition isDeletion (e : Element) : bool :=
  match e with DelHtml _ _ _ => true | _ => false end.

(** The highlighted [span] of an addition is the only [span] with a class
    name. *)
Definition isInsertion (e : Element) : bool :=
  match e with SpanHtml _ (Some _) _ => true | _ => false end.

Fixpoint textWithout (skip : Element -> bool) (e : Element) : string :=
  match e with
  | SpanOf children => Js.join EmptyString (map (textWithout skip) children)
  | SpanHtml _ _ html | DelHtml _ _ html => if skip e then EmptyString else html
  end.

(** The React key of an element. *)
Definition keyOfElement (e : Element) : option nat :=
  match e with
  | SpanHtml k _ _ | DelHtml k _ _ => k
  | SpanOf _ => None
  end.

(** *** Reconstruction *)

(** [record] has the columns of [row], each cell starting with the cell of
    [row]. *)
Definition extends (row record : RowData) : Prop :=
  forall k,
    match row !! k with
    | Some v => exists suffix, record !! k = Some (v +:+ suffix)
    | None => record !! k = None
    end.

Section ReconstructionNotions.

Variable textContent : string -> string.

(** [isTestStepRow] of the merge loop. *)
Definition isTestStepRow (row : RowData) : bool :=
  negb (Js.isEmpty (Js.trim (getCleanTextContent textContent (field row "Step Order")))).

(** [structuredData]: the row objects of the rows below the header row (no
    row object when there is no header row). *)
Definition structuredData (rawData : list (list string)) : list RowData :=
  match findHeader textContent 0 rawData with
  | Some (headerIndex, cleanHeaders) =>
      map (toRowObject cleanHeaders) (drop (headerIndex + 1) rawData)
  | None => []
  end.

(** What the merge loop keeps true once the rows before [k] are done: the
    heap still has one object per row; every object extends its row, with
    the identifier of its row, and is the row itself unless the row is a
    step row; the rows from [k] on are untouched; the merged addresses are
    addresses below [k], in order; and the parent, if any, is a step row
    below [k]. *)
Definition mergeInv (structured : list RowData) (k : nat) (st : mergeState) : Prop :=
  length (heap st) = length structured /\
  (forall r row rec,
      structured !! r = Some row -> heap st !! r = Some rec ->
      extends row rec /\
      rec !! "Step Order" = row !! "Step Order" /\
      (rec = row \/ isTestStepRow row = true)) /\
  (forall r, k <= r -> heap st !! r = structured !! r) /\
  mergedRows st `sublist_of` seq 0 k /\
  (forall p, lastParentRow st = Some p ->
             p < k /\ exists row, structured !! p = Some row /\ isTestStepRow row = true).

End ReconstructionNotions.

(** *** The caller: [handleCompare]

    [handleCompare] between the parsing of the two files and the call of
    the summary service: it reconstructs both grids, refuses two empty
    sequences, aligns, and samples the changed pairs for the summary.  The
    parsing, the summary service and the component state are outside. *)

Definition emptyComparison : string :=
  "No comparable test step data could be found in either file. Please ensure the HTML file contains a table with a header row with 'Step Order', 'Procedure', and 'Expected Outcome'.".

(** What the component is left with: the message of the error caught, or
    the result and the request sent to the summary service ([None]: no
    request, the fixed no-changes message is shown). *)
Inductive comparison : Type :=
| ComparisonFailed (error : string)
| ComparisonDone (result : ComparisonOutput)
                 (summaryRequest : option (DiffSummary * list ComparisonRowPair)).

Definition handleCompare (textContent : string -> string)
    (originalRawData revisedRawData : list (list string)) (comparisonMode : Mode)
  : comparison :=
  match processRawData textContent originalRawData with
  | Throws message => ComparisonFailed message
  | Returns originalTestSteps =>
      match processRawData textContent revisedRawData with
      | Throws message => ComparisonFailed message
      | Returns revisedTestSteps =>
          if (length originalTestSteps =? 0) && (length revisedTestSteps =? 0)
          then ComparisonFailed emptyComparison
          else
            let result :=
              performLcsDiff textContent originalTestSteps revisedTestSteps comparisonMode in
            let changedRowsSample :=
              take 10 (filter (fun r => status r <> UNCHANGED) (rows result)) in
            ComparisonDone result
              (if 0 <? length changedRowsSample
               then Some (diffSummary result, changedRowsSample)
               else None)
      end
  end.


(** *** Keys of the pairs, and matchings *)

(** A string with a [-] in it. *)
Fixpoint hasDash (s : string) : bool :=
  match s with
  | EmptyString => false
  | String c rest => Ascii.eqb c "-" || hasDash rest
  end.

(** The keys of the pairs already in front of the result are built from
    indices above the current ones. *)
Definition keysAbove (i j : nat) (acc : list ComparisonRowPair) : Prop :=
  Forall (fun p =>
            (exists i' j', i < i' /\ j < j' /\
                           key p = "match-" +:+ pretty i' +:+ "-" +:+ pretty j') \/
            (exists j', j < j' /\ key p = "revised-" +:+ pretty j') \/
            (exists i', i < i' /\ key p = "original-" +:+ pretty i'))
         acc.

(** [common equal xs ys k]: [k] pairs of an element of [xs] and an element
    of [ys] that are equal under the oracle can be chosen so that the pairs
    keep the order of both sequences. *)
Inductive common {A : Type} (equal : A -> A -> bool) : list A -> list A -> nat -> Prop :=
| common_nil : common equal [] [] 0
| common_match xs ys x y k :
    equal x y = true -> common equal xs ys k ->
    common equal (xs ++ [x]) (ys ++ [y]) (S k)
| common_skip_original xs ys x k :
    common equal xs ys k -> common equal (xs ++ [x]) ys k
| common_skip_revised xs ys y k :
    common equal xs ys k -> common equal xs (ys ++ [y]) k.

(** *** More sample data *)

(** The records of [gridContinuation] and of [gridProcedureOnly], and what
    [handleCompare] makes of the two grids under BY_IDENTIFIER. *)
Definition sampleOriginal : list RowData :=
  [record "1" "AB" "X"; record "2" "C" ""].

Definition sampleRevised : list RowData :=
  [record "1" "A" ""; record "" "B" ""; record "2" "C" ""].

Definition sampleResult : ComparisonOutput :=
  performLcsDiff stripTags sampleOriginal sampleRevised step.

Definition sampleRequest : option (DiffSummary * list ComparisonRowPair) :=
  Some (diffSummary sampleResult,
        take 10 (filter (fun r => status r <> UNCHANGED) (rows sampleResult))).

(** A step without procedure. *)
Definition stepNoProcedure : RowData := record "7" "" "It is done".

(** * Properties *)

(** ** The table and the backtracking loop *)

Module LcsFacts.

Section Table.

Context {A : Type}.
Variable equal : A -> A -> bool.
Variables original revised : list A.

(** The table keeps its [m + 1] rows of [n + 1] cells, so the reads of
    the program at [i <= m], [j <= n] are inside it. *)
Lemma setCell_shaped m n dp i j v :
  Lcs.shaped m n dp -> Lcs.shaped m n (Lcs.setCell dp i j v).
Proof.
  intros [Hm Hn]. unfold Lcs.setCell.
  destruct (dp !! i) as [row|] eqn:Hrow; [|done]. split.
  - by rewrite length_insert.
  - apply Forall_insert; [done|]. rewrite length_insert.
    by apply (Forall_lookup_1 _ _ _ _ Hn Hrow).
Qed.

Lemma table_shaped :
  Lcs.shaped (length original + 1) (length revised + 1)
             (Lcs.table equal original revised).
Proof.
  unfold Lcs.table.
  generalize (seq 1 (length original)) as ks.
  generalize (seq 1 (length revised)) as js.
  assert (Lcs.shaped (length original + 1) (length revised + 1)
            (replicate (length original + 1) (replicate (length revised + 1) 0)))
    as Hinit.
  { split; [by rewrite length_replicate|].
    apply Forall_replicate. by rewrite length_replicate. }
  revert Hinit. generalize (replicate (length original + 1)
                              (replicate (length revised + 1) 0)) as dp.
  intros dp Hdp js ks. revert dp Hdp.
  induction ks as [|i ks IH]; intros dp Hdp; [done|].
  cbn [foldl]. apply IH. clear IH. revert dp Hdp.
  induction js as [|j js IH]; intros dp Hdp; [done|].
  cbn [foldl]. apply IH. unfold Lcs.fillCell.
  destruct (Lcs.matches _ _ _); by apply setCell_shaped.
Qed.

Lemma shaped_lookup m n dp i j :
  Lcs.shaped m n dp -> i < m -> j < n -> is_Some (dp !! i ≫= (.!! j)).
Proof.
  intros [Hm Hn] Hi Hj.
  destruct (lookup_lt_is_Some_2 dp i) as [row Hrow]; [lia|].
  rewrite Hrow. cbn. apply lookup_lt_is_Some_2.
  by rewrite (Forall_lookup_1 _ _ _ _ Hn Hrow).
Qed.

(** *** The table holds the counts *)

Lemma cell_setCell m n dp i j v i' j' :
  Lcs.shaped m n dp -> i < m -> j < n ->
  Lcs.cell (Lcs.setCell dp i j v) i' j'
  = if decide (i' = i /\ j' = j) then v else Lcs.cell dp i' j'.
Proof.
  intros [Hm Hn] Hi Hj. unfold Lcs.setCell, Lcs.cell.
  destruct (lookup_lt_is_Some_2 dp i) as [row Hrow]; [lia|].
  rewrite Hrow.
  assert (length row = n) as Hlen by apply (Forall_lookup_1 _ _ _ _ Hn Hrow).
  destruct (decide (i' = i)) as [->|Hne].
  - rewrite list_lookup_insert_eq by lia. cbn.
    destruct (decide (j' = j)) as [->|Hnj].
    + rewrite list_lookup_insert_eq by lia. by rewrite decide_True.
    + rewrite list_lookup_insert_ne by done. rewrite Hrow.
      by rewrite decide_False by tauto.
  - rewrite list_lookup_insert_ne by done. by rewrite decide_False by tauto.
Qed.

Lemma lcsRev_nil_r (xs : list A) : Lcs.lcsRev equal xs [] = 0.
Proof. by destruct xs. Qed.

Lemma count_0_l j : Lcs.count equal original revised 0 j = 0.
Proof. done. Qed.

Lemma count_0_r i : Lcs.count equal original revised i 0 = 0.
Proof. unfold Lcs.count. cbn. apply lcsRev_nil_r. Qed.

Lemma count_S i j a b :
  original !! i = Some a -> revised !! j = Some b ->
  Lcs.count equal original revised (S i) (S j)
  = if equal a b then Lcs.count equal original revised i j + 1
    else Nat.max (Lcs.count equal original revised i (S j))
                 (Lcs.count equal original revised (S i) j).
Proof.
  intros Ha Hb. unfold Lcs.count.
  rewrite (take_S_r _ _ _ Ha), (take_S_r _ _ _ Hb), !reverse_snoc.
  done.
Qed.

Lemma fillCell_filledTo dp i j :
  0 < i -> i <= length original -> 0 < j -> j <= length revised ->
  Lcs.filledTo equal original revised i (j - 1) dp ->
  Lcs.filledTo equal original revised i j (Lcs.fillCell equal original revised dp i j).
Proof.
  intros Hi0 Hi Hj0 Hj [Hshape Hcells].
  destruct (lookup_lt_is_Some_2 original (i - 1)) as [a Ha]; [lia|].
  destruct (lookup_lt_is_Some_2 revised (j - 1)) as [b Hb]; [lia|].
  assert (Lcs.count equal original revised i j
          = if equal a b then Lcs.cell dp (i - 1) (j - 1) + 1
            else Nat.max (Lcs.cell dp (i - 1) j) (Lcs.cell dp i (j - 1))) as Hcount.
  { replace i with (S (i - 1)) at 1 by lia. replace j with (S (j - 1)) at 1 by lia.
    rewrite (count_S _ _ _ _ Ha Hb).
    rewrite !Hcells by lia.
    replace (S (i - 1)) with i by lia. replace (S (j - 1)) with j by lia. done. }
  unfold Lcs.fillCell. rewrite Ha, Hb. cbn [Lcs.matches]. split.
  - destruct (equal a b); by apply setCell_shaped.
  - intros i' j' Hi' Hj' Hdone.
    assert (forall v, Lcs.cell (Lcs.setCell dp i j v) i' j'
                      = if decide (i' = i /\ j' = j) then v else Lcs.cell dp i' j') as Hset
      by (intros v; apply (cell_setCell _ _ _ _ _ _ _ _ Hshape); lia).
    destruct (equal a b); rewrite Hset; case_decide as Hij.
    + destruct Hij as [-> ->]. by rewrite Hcount.
    + apply Hcells; lia.
    + destruct Hij as [-> ->]. by rewrite Hcount.
    + apply Hcells; lia.
Qed.

Lemma fillRow_filledTo dp i len j0 :
  0 < i -> i <= length original -> j0 + len = length revised ->
  Lcs.filledTo equal original revised i j0 dp ->
  Lcs.filledTo equal original revised i (length revised)
    (foldl (fun dp j => Lcs.fillCell equal original revised dp i j) dp (seq (S j0) len)).
Proof.
  intros Hi0 Hi. revert j0 dp. induction len as [|len IH]; intros j0 dp Hlen Hdp.
  - cbn. by replace (length revised) with j0 by lia.
  - cbn [seq foldl]. apply IH; [lia|].
    apply fillCell_filledTo; try lia. by replace (S j0 - 1) with j0 by lia.
Qed.

Lemma fillRows_filledTo dp len i0 :
  i0 + len = length original ->
  Lcs.filledTo equal original revised i0 (length revised) dp ->
  Lcs.filledTo equal original revised (length original) (length revised)
    (foldl (fun dp i =>
              foldl (fun dp j => Lcs.fillCell equal original revised dp i j) dp
                    (seq 1 (length revised)))
           dp (seq (S i0) len)).
Proof.
  revert i0 dp. induction len as [|len IH]; intros i0 dp Hlen Hdp.
  - cbn. by replace (length original) with i0 by lia.
  - cbn [seq foldl]. apply IH; [lia|].
    apply (fillRow_filledTo _ _ _ 0); try lia.
    destruct Hdp as [Hshape Hcells]. split; [done|].
    intros i' j' Hi' Hj' Hdone. apply Hcells; lia.
Qed.

(** Every cell of the table the program builds holds its count. *)
Lemma table_count i j :
  i <= length original -> j <= length revised ->
  Lcs.cell (Lcs.table equal original revised) i j
  = Lcs.count equal original revised i j.
Proof.
  intros Hi Hj.
  assert (Lcs.filledTo equal original revised (length original) (length revised)
            (Lcs.table equal original revised)) as [_ Hcells].
  { unfold Lcs.table. apply (fillRows_filledTo _ _ 0); [lia|]. split.
    - split; [by rewrite length_replicate|].
      apply Forall_replicate. by rewrite length_replicate.
    - intros i' j' Hi' Hj' Hdone. unfold Lcs.cell.
      rewrite lookup_replicate_2 by lia. cbn.
      rewrite lookup_replicate_2 by lia. cbn.
      destruct Hdone as [-> | [? | [-> _]]]; [by rewrite count_0_r | lia | done]. }
  apply Hcells; lia.
Qed.

End Table.

Section Loops.

Context {A R : Type}.
Variable equal : A -> A -> bool.
Variable onMatch : nat -> nat -> option A -> option A -> R.
Variable onAdded : nat -> option A -> R.
Variable onDeleted : nat -> option A -> R.
Variables original revised : list A.

Local Abbreviation stepOf := (Lcs.backtrackStep equal onMatch onAdded onDeleted original revised).
Local Abbreviation loopOf := (Lcs.backtrackLoop equal onMatch onAdded onDeleted original revised).
Local Abbreviation runOf := (Lcs.run equal onMatch onAdded onDeleted original revised).

(** Inside the bounds, an iteration is one of the three moves, and the
    loop is left only when both indices are zero: [break] is never
    reached. *)
Lemma backtrackStep_cases dp i j acc :
  i <= length original -> j <= length revised ->
  (i = 0 /\ j = 0 /\ stepOf dp (Lcs.State i j acc) = None) \/
  (exists a b,
      0 < i /\ 0 < j /\
      original !! (i - 1) = Some a /\ revised !! (j - 1) = Some b /\
      equal a b = true /\
      stepOf dp (Lcs.State i j acc)
      = Some (Lcs.State (i - 1) (j - 1) (onMatch i j (Some a) (Some b) :: acc))) \/
  (exists b,
      0 < j /\ revised !! (j - 1) = Some b /\
      stepOf dp (Lcs.State i j acc)
      = Some (Lcs.State i (j - 1) (onAdded j (Some b) :: acc))) \/
  (exists a,
      0 < i /\ original !! (i - 1) = Some a /\
      stepOf dp (Lcs.State i j acc)
      = Some (Lcs.State (i - 1) j (onDeleted i (Some a) :: acc))).
Proof.
  intros Hi Hj. unfold Lcs.backtrackStep. cbn [Lcs.idxI Lcs.idxJ Lcs.out].
  destruct i as [|i'], j as [|j'].
  - left. auto.
  - right. right. left.
    destruct (lookup_lt_is_Some_2 revised (S j' - 1)) as [b Hb]; [lia|].
    exists b. cbn. cbn in Hb. rewrite Hb. split; [lia|]. split; [done|]. done.
  - right. right. right.
    destruct (lookup_lt_is_Some_2 original (S i' - 1)) as [a Ha]; [lia|].
    exists a. cbn. cbn in Ha. rewrite Ha. split; [lia|]. split; [done|].
    done.
  - destruct (lookup_lt_is_Some_2 original (S i' - 1)) as [a Ha]; [lia|].
    destruct (lookup_lt_is_Some_2 revised (S j' - 1)) as [b Hb]; [lia|].
    change (0 <? S i') with true. change (0 <? S j') with true.
    change (S i' =? 0) with false. change (S j' =? 0) with false.
    cbn [orb andb]. rewrite Ha, Hb. cbn [Lcs.matches].
    destruct (equal a b) eqn:Heq.
    + right. left. exists a, b. repeat split; try lia; done.
    +
      destruct (Lcs.cell dp (S i' - 1) (S j') <=? Lcs.cell dp (S i') (S j' - 1)) eqn:Hle.
      * right. right. left. exists b. repeat split; try lia; done.
      * right. right. right. exists a.
        apply Nat.leb_gt in Hle. apply Nat.ltb_lt in Hle.
        rewrite Hle.
        repeat split; try lia; done.
Qed.

(** Started inside the bounds and allowed [i + j] iterations, the loop
    stops because its condition fails: both indices are zero. *)
Lemma backtrackLoop_finished dp fuel i j acc :
  i <= length original -> j <= length revised -> i + j <= fuel ->
  Lcs.idxI (loopOf fuel dp (Lcs.State i j acc)) = 0 /\
  Lcs.idxJ (loopOf fuel dp (Lcs.State i j acc)) = 0.
Proof.
  revert i j acc. induction fuel as [|fuel IH]; intros i j acc Hi Hj Hf.
  - cbn. lia.
  - cbn [Lcs.backtrackLoop].
    destruct (backtrackStep_cases dp i j acc Hi Hj)
      as [(-> & -> & ->)|[(a & b & Hi0 & Hj0 & Ha & Hb & Heq & ->)
         |[(b & Hj0 & Hb & ->)|(a & Hi0 & Ha & ->)]]];
      [done | apply IH; lia ..].
Qed.

(** Every entry of the result is one of the three entries, built from
    elements of the two sequences. *)
Lemma backtrackLoop_Forall (P : R -> Prop) dp fuel i j acc :
  (forall i j a b, equal a b = true -> P (onMatch i j (Some a) (Some b))) ->
  (forall j b, P (onAdded j (Some b))) ->
  (forall i a, P (onDeleted i (Some a))) ->
  i <= length original -> j <= length revised ->
  Forall P acc ->
  Forall P (Lcs.out (loopOf fuel dp (Lcs.State i j acc))).
Proof.
  intros HM HA HD. revert i j acc.
  induction fuel as [|fuel IH]; intros i j acc Hi Hj Hacc; [done|].
  cbn [Lcs.backtrackLoop].
  destruct (backtrackStep_cases dp i j acc Hi Hj)
    as [(-> & -> & ->)|[(a & b & Hi0 & Hj0 & Ha & Hb & Heq & ->)
       |[(b & Hj0 & Hb & ->)|(a & Hi0 & Ha & ->)]]];
    [done | apply IH; [lia | lia | constructor; auto] ..].
Qed.

Lemma run_Forall (P : R -> Prop) :
  (forall i j a b, equal a b = true -> P (onMatch i j (Some a) (Some b))) ->
  (forall j b, P (onAdded j (Some b))) ->
  (forall i a, P (onDeleted i (Some a))) ->
  Forall P runOf.
Proof.
  intros HM HA HD. unfold Lcs.run.
  apply backtrackLoop_Forall; auto.
Qed.

(** The tie-break: with both elements present and not equal under the
    oracle, equal counts in the two neighbour cells make the iteration
    register the revised element as added and move along the revised
    axis. *)
Lemma backtrackStep_tie dp i j acc a b :
  0 < i -> 0 < j ->
  original !! (i - 1) = Some a -> revised !! (j - 1) = Some b ->
  equal a b = false ->
  Lcs.cell dp i (j - 1) = Lcs.cell dp (i - 1) j ->
  stepOf dp (Lcs.State i j acc)
  = Some (Lcs.State i (j - 1) (onAdded j (Some b) :: acc)).
Proof.
  intros Hi Hj Ha Hb Heq Htie. unfold Lcs.backtrackStep.
  cbn [Lcs.idxI Lcs.idxJ Lcs.out].
  apply Nat.ltb_lt in Hi, Hj. rewrite Hi, Hj, Ha, Hb.
  cbn [orb andb Lcs.matches]. rewrite Heq, Htie, Nat.leb_refl, orb_true_r.
  done.
Qed.

(** The kept entries, projected, reproduce a sequence: the original one
    when the kept entries are the matches and the deletions, the revised
    one when they are the matches and the additions. *)
Section Projection.

Context {X : Type}.
Variable keep : R -> Prop.
Context `{!forall r, Decision (keep r)}.
Variable proj : R -> X.
Variable embed : A -> X.

Section Original.

Hypothesis keep_match : forall i j a b, keep (onMatch i j (Some a) (Some b)).
Hypothesis proj_match : forall i j a b,
    proj (onMatch i j (Some a) (Some b)) = embed a.
Hypothesis drop_added : forall j b, ~ keep (onAdded j (Some b)).
Hypothesis keep_deleted : forall i a, keep (onDeleted i (Some a)).
Hypothesis proj_deleted : forall i a, proj (onDeleted i (Some a)) = embed a.

Lemma backtrackLoop_original dp fuel i j acc :
  i <= length original -> j <= length revised -> i + j <= fuel ->
  map proj (filter keep (Lcs.out (loopOf fuel dp (Lcs.State i j acc))))
  = map embed (take i original) ++ map proj (filter keep acc).
Proof.
  revert i j acc. induction fuel as [|fuel IH]; intros i j acc Hi Hj Hf.
  - assert (i = 0) as -> by lia. done.
  - cbn [Lcs.backtrackLoop].
    destruct (backtrackStep_cases dp i j acc Hi Hj)
      as [(-> & -> & ->)|[(a & b & Hi0 & Hj0 & Ha & Hb & Heq & ->)
         |[(b & Hj0 & Hb & ->)|(a & Hi0 & Ha & ->)]]].
    + done.
    + rewrite IH by lia.
      rewrite filter_cons_True by apply keep_match.
      cbn [map]. rewrite proj_match.
      replace i with (S (i - 1)) at 2 by lia.
      rewrite (take_S_r _ _ _ Ha), map_app, <- app_assoc. done.
    + rewrite IH by lia.
      rewrite filter_cons_False by apply drop_added. done.
    + rewrite IH by lia.
      rewrite filter_cons_True by apply keep_deleted.
      cbn [map]. rewrite proj_deleted.
      replace i with (S (i - 1)) at 2 by lia.
      rewrite (take_S_r _ _ _ Ha), map_app, <- app_assoc. done.
Qed.

Lemma run_original : map proj (filter keep runOf) = map embed original.
Proof.
  unfold Lcs.run. rewrite backtrackLoop_original by lia.
  rewrite firstn_all. cbn. by rewrite app_nil_r.
Qed.

End Original.

Section Revised.

Hypothesis keep_match : forall i j a b, keep (onMatch i j (Some a) (Some b)).
Hypothesis proj_match : forall i j a b,
    equal a b = true -> proj (onMatch i j (Some a) (Some b)) = embed b.
Hypothesis keep_added : forall j b, keep (onAdded j (Some b)).
Hypothesis proj_added : forall j b, proj (onAdded j (Some b)) = embed b.
Hypothesis drop_deleted : forall i a, ~ keep (onDeleted i (Some a)).

Lemma backtrackLoop_revised dp fuel i j acc :
  i <= length original -> j <= length revised -> i + j <= fuel ->
  map proj (filter keep (Lcs.out (loopOf fuel dp (Lcs.State i j acc))))
  = map embed (take j revised) ++ map proj (filter keep acc).
Proof.
  revert i j acc. induction fuel as [|fuel IH]; intros i j acc Hi Hj Hf.
  - assert (j = 0) as -> by lia. done.
  - cbn [Lcs.backtrackLoop].
    destruct (backtrackStep_cases dp i j acc Hi Hj)
      as [(-> & -> & ->)|[(a & b & Hi0 & Hj0 & Ha & Hb & Heq & ->)
         |[(b & Hj0 & Hb & ->)|(a & Hi0 & Ha & ->)]]].
    + done.
    + rewrite IH by lia.
      rewrite filter_cons_True by apply keep_match.
      cbn [map]. rewrite proj_match by done.
      replace j with (S (j - 1)) at 2 by lia.
      rewrite (take_S_r _ _ _ Hb), map_app, <- app_assoc. done.
    + rewrite IH by lia.
      rewrite filter_cons_True by apply keep_added.
      cbn [map]. rewrite proj_added.
      replace j with (S (j - 1)) at 2 by lia.
      rewrite (take_S_r _ _ _ Hb), map_app, <- app_assoc. done.
    + rewrite IH by lia.
      rewrite filter_cons_False by apply drop_deleted. done.
Qed.

Lemma run_revised : map proj (filter keep runOf) = map embed revised.
Proof.
  unfold Lcs.run. rewrite backtrackLoop_revised by lia.
  rewrite firstn_all. cbn. by rewrite app_nil_r.
Qed.

End Revised.

End Projection.

End Loops.
End LcsFacts.

(** Two one-element sequences: a match, or a deletion followed by an
    addition. *)
Lemma Lcs_run_singletons {A R : Type} (equal : A -> A -> bool)
    (onMatch : nat -> nat -> option A -> option A -> R)
    (onAdded onDeleted : nat -> option A -> R) (a b : A) :
  Lcs.run equal onMatch onAdded onDeleted [a] [b]
  = if equal a b then [onMatch 1 1 (Some a) (Some b)]
    else [onDeleted 1 (Some a); onAdded 1 (Some b)].
Proof.
  unfold Lcs.run, Lcs.table. cbn. unfold Lcs.fillCell. cbn.
  destruct (equal a b); reflexivity.
Qed.

(** ** Strings *)

Module JsFacts.

Lemma app_nil_l (s : string) : EmptyString +:+ s = s.
Proof. reflexivity. Qed.

Lemma app_cons (c : ascii) (s t : string) :
  String c s +:+ t = String c (s +:+ t).
Proof. reflexivity. Qed.

Lemma app_nil_r (s : string) : s +:+ EmptyString = s.
Proof. induction s as [|c s IH]; [done|]. by rewrite app_cons, IH. Qed.

Lemma app_assoc (s t u : string) : (s +:+ t) +:+ u = s +:+ (t +:+ u).
Proof. induction s as [|c s IH]; [done|]. by rewrite !app_cons, IH. Qed.

Lemma take_drop (n : nat) (s : string) : Js.take n s +:+ Js.drop n s = s.
Proof.
  revert s. induction n as [|n IH]; intros [|c s]; try done.
  cbn [Js.take Js.drop]. by rewrite app_cons, IH.
Qed.


Lemma isEmpty_false (s : string) : Js.isEmpty s = false <-> s <> EmptyString.
Proof. by destruct s. Qed.

Lemma trimStart_headed (s : string) : Js.headed (Js.trimStart s).
Proof.
  induction s as [|c s IH]; [done|]. cbn [Js.trimStart].
  by destruct (Js.isWhiteSpace c) eqn:Hc.
Qed.

Lemma trimStart_of_headed (s : string) : Js.headed s -> Js.trimStart s = s.
Proof. destruct s as [|c s]; [done|]. cbn. by intros ->. Qed.

Lemma trimEnd_headed (s : string) : Js.headed s -> Js.headed (Js.trimEnd s).
Proof.
  destruct s as [|c s]; [done|]. cbn [Js.headed Js.trimEnd]. intros Hc.
  destruct (Js.trimEnd s); by rewrite ?Hc.
Qed.

Lemma trimEnd_idemp (s : string) : Js.trimEnd (Js.trimEnd s) = Js.trimEnd s.
Proof.
  induction s as [|c s IH]; [done|]. cbn [Js.trimEnd].
  destruct (Js.trimEnd s) as [|d r] eqn:Hr.
  - destruct (Js.isWhiteSpace c) eqn:Hc; [done|]. cbn. by rewrite Hc.
  - cbn [Js.trimEnd]. cbn [Js.trimEnd] in IH.
    destruct (Js.trimEnd r) as [|e r'] eqn:Hr'.
    + destruct (Js.isWhiteSpace d); [done|]. by rewrite IH.
    + by rewrite IH.
Qed.

(** [s.trim().trim() === s.trim()] *)
Lemma trim_idemp (s : string) : Js.trim (Js.trim s) = Js.trim s.
Proof.
  unfold Js.trim.
  rewrite (trimStart_of_headed (Js.trimEnd (Js.trimStart s)))
    by apply trimEnd_headed, trimStart_headed.
  apply trimEnd_idemp.
Qed.

(** [parts.join('')] is the concatenation of the parts, and parts that are
    empty do not contribute. *)
Lemma join_empty_cons (x : string) (l : list string) :
  Js.join EmptyString (x :: l) = x +:+ Js.join EmptyString l.
Proof.
  destruct l as [|y l]; cbn [Js.join]; [by rewrite app_nil_r|done].
Qed.

Lemma join_empty_filter (l : list string) :
  Js.join EmptyString (filter (fun w => Js.isEmpty w = false) l)
  = Js.join EmptyString l.
Proof.
  induction l as [|x l IH]; [done|].
  rewrite join_empty_cons. destruct x as [|c x].
  - rewrite filter_cons_False by done. by rewrite IH.
  - rewrite filter_cons_True by done. by rewrite join_empty_cons, IH.
Qed.

End JsFacts.

(** ** The tokenizer keeps every code unit *)

Module TokensFacts.

Lemma matchAt_pos (s : string) (n : nat) : Tokens.matchAt s = Some n -> 0 < n.
Proof.
  unfold Tokens.matchAt. destruct (Tokens.matchTag s) as [k|] eqn:Htag.
  - intros [= <-]. unfold Tokens.matchTag in Htag.
    repeat case_match; simplify_eq; lia.
  - destruct (LineBreak.spaces s); intros [= <-]. lia.
Qed.

Lemma splitFrom_join (s : string) (skip : nat) (cur : string) :
  Js.join EmptyString (Tokens.splitFrom skip cur s) = cur +:+ Js.drop skip s.
Proof.
  revert skip cur. induction s as [|c s IH]; intros skip cur.
  - destruct skip; cbn; by rewrite JsFacts.app_nil_r.
  - destruct skip as [|k]; cbn [Tokens.splitFrom].
    + destruct (Tokens.matchAt (String c s)) as [n|] eqn:Hm.
      * apply matchAt_pos in Hm. destruct n as [|n]; [lia|].
        rewrite !JsFacts.join_empty_cons, IH.
        replace (S n - 1) with n by lia. rewrite JsFacts.app_nil_l.
        change (Js.drop n s) with (Js.drop (S n) (String c s)).
        by rewrite JsFacts.take_drop.
      * rewrite IH. cbn [Js.drop].
        by rewrite JsFacts.app_assoc, JsFacts.app_cons, JsFacts.app_nil_l.
    + rewrite IH. done.
Qed.

(** The tokens of a string, put together again, are the string. *)
Lemma words_join (s : string) : Js.join EmptyString (Tokens.words s) = s.
Proof.
  unfold Tokens.words, Tokens.split.
  rewrite JsFacts.join_empty_filter, splitFrom_join.
  cbn [Js.drop]. destruct s; apply JsFacts.app_nil_l.
Qed.

(** No token is empty. *)
Lemma words_nonempty (s w : string) : w ∈ Tokens.words s -> w <> EmptyString.
Proof.
  unfold Tokens.words. intros Hw. apply list_elem_of_filter in Hw as [Hw _].
  by apply JsFacts.isEmpty_false.
Qed.

End TokensFacts.

(** ** The row matcher and the aligner *)

Section Aligner.

Variable textContent : string -> string.

Local Abbreviation clean := (getCleanTextContent textContent).
Local Abbreviation isCat := (isCategory textContent).

(** The flag of a record is [false], the empty string, or the boolean that
    tells whether the normalized outcome is empty. *)
Lemma isCategory_cases (row : RowData) :
  isCat row =
  if Js.isEmpty (clean (field row "Step Order")) then
    if Js.isEmpty (clean (field row "Procedure")) then Js.VStr EmptyString
    else Js.VBool (Js.isEmpty (clean (field row "Expected Outcome")))
  else Js.VBool false.
Proof.
  unfold isCategory, Js.and, Js.not. cbn [Js.truthy].
  destruct (Js.isEmpty (clean (field row "Step Order"))); cbn; [|done].
  destruct (clean (field row "Procedure")) eqn:Hp; cbn; [done|].
  by destruct (Js.isEmpty (clean (field row "Expected Outcome"))).
Qed.

(** The flag is truthy exactly on category records. *)
Lemma isCategory_category (row : RowData) :
  Js.truthy (isCat row) = category textContent row.
Proof.
  rewrite isCategory_cases. unfold category.
  destruct (Js.isEmpty (clean (field row "Step Order"))); [|done].
  destruct (Js.isEmpty (clean (field row "Procedure"))); [done|].
  by destruct (Js.isEmpty (clean (field row "Expected Outcome"))).
Qed.

(** The flags of two records that are not categories are strictly equal
    exactly when the records agree on [blankHead]. *)
Lemma strictEq_noncategory (a b : RowData) :
  category textContent a = false -> category textContent b = false ->
  Js.strictEq (isCat a) (isCat b)
  = Bool.eqb (blankHead textContent a) (blankHead textContent b).
Proof.
  unfold category, blankHead. rewrite !isCategory_cases.
  destruct (Js.isEmpty (clean (field a "Step Order"))),
           (Js.isEmpty (clean (field a "Procedure"))),
           (Js.isEmpty (clean (field a "Expected Outcome"))),
           (Js.isEmpty (clean (field b "Step Order"))),
           (Js.isEmpty (clean (field b "Procedure"))),
           (Js.isEmpty (clean (field b "Expected Outcome")));
    cbn; congruence.
Qed.

(** The oracle on two records that are not categories. *)
Lemma areRowsEqual_noncategory (mode : Mode) (a b : RowData) :
  category textContent a = false -> category textContent b = false ->
  areRowsEqual textContent mode a b =
  Bool.eqb (blankHead textContent a) (blankHead textContent b) &&
  match mode with
  | step =>
      String.eqb (Js.trim (field a "Step Order")) (Js.trim (field b "Step Order"))
  | content =>
      negb (Js.isEmpty (Js.trim (getFirstTwoLinesKey textContent (field a "Procedure")))) &&
      String.eqb (getFirstTwoLinesKey textContent (field a "Procedure"))
                 (getFirstTwoLinesKey textContent (field b "Procedure"))
  end.
Proof.
  intros Ha Hb. unfold areRowsEqual.
  rewrite (strictEq_noncategory a b Ha Hb).
  assert (Js.truthy (Js.and (isCat a) (isCat b)) = false) as ->.
  { unfold Js.and. pose proof (isCategory_category a) as Ha'.
    rewrite Ha in Ha'. by rewrite !Ha'. }
  destruct (Bool.eqb (blankHead textContent a) (blankHead textContent b)); done.
Qed.

(** A matched pair is never tagged as an addition or a deletion. *)
Lemma matchStatus_cases (mode : Mode) (a b : RowData) :
  matchStatus textContent mode a b = UNCHANGED \/
  matchStatus textContent mode a b = MODIFIED.
Proof.
  unfold matchStatus. repeat case_match; auto.
Qed.

(** C1 -- Edit-script validity.  For all record sequences and both modes,
    the pairs returned by the aligner, read in order, give back the
    original sequence on their original side once the ADDED pairs are
    skipped, and the revised sequence on their revised side once the
    DELETED pairs are skipped. *)
Theorem performLcsDiff_edit_script (original revised : list RowData) (mode : Mode) :
  map originalOf
      (filter (fun p => status p <> ADDED)
              (rows (performLcsDiff textContent original revised mode)))
  = map Some original /\
  map revisedOf
      (filter (fun p => status p <> DELETED)
              (rows (performLcsDiff textContent original revised mode)))
  = map Some revised.
Proof.
  cbn [performLcsDiff rows]. unfold pairedRows. split.
  - apply LcsFacts.run_original; intros; cbn; try done.
    + destruct (matchStatus_cases mode a b) as [-> | ->]; done.
    + by intros [].
  - apply LcsFacts.run_revised; intros; cbn; try done.
    + destruct (matchStatus_cases mode a b) as [-> | ->]; done.
    + by intros [].
Qed.

(** C8 -- Matched category pairs are never MODIFIED.  In the pairs
    returned by the aligner, under both modes, a pair with both sides
    present whose two records are category records has status
    UNCHANGED. *)
Theorem performLcsDiff_category_unchanged
    (original revised : list RowData) (mode : Mode)
    (p : ComparisonRowPair) (a b : RowData) :
  p ∈ rows (performLcsDiff textContent original revised mode) ->
  originalOf p = Some a -> revisedOf p = Some b ->
  category textContent a = true -> category textContent b = true ->
  status p = UNCHANGED.
Proof.
  cbn [performLcsDiff rows]. unfold pairedRows. intros Hp.
  revert a b.
  eapply (proj1 (Forall_forall
            (fun p => forall a b, originalOf p = Some a -> revisedOf p = Some b ->
               category textContent a = true -> category textContent b = true ->
               status p = UNCHANGED) _)); [|exact Hp].
  apply LcsFacts.run_Forall.
  - intros i j a b _ a' b'. cbn. intros [= <-] [= <-] Ha _.
    unfold matchStatus. by rewrite isCategory_category, Ha.
  - intros j b a' b'. cbn. done.
  - intros i a a' b'. cbn. done.
Qed.

End Aligner.

(** C5 -- Tie-break of the backtracking.  In an iteration where both current
    elements are present and not equal under the oracle, and the two
    neighbour cells of the table hold the same count, the aligner puts the
    revised record in front of the result as ADDED and decreases the revised
    index only; the word diff does the same with the revised token. *)
Theorem backtrack_tie_break (textContent : string -> string) :
  (forall (mode : Mode) (original revised : list RowData) (i j : nat)
          (acc : list ComparisonRowPair) (a b : RowData),
      0 < i -> 0 < j ->
      original !! (i - 1) = Some a -> revised !! (j - 1) = Some b ->
      areRowsEqual textContent mode a b = false ->
      Lcs.cell (alignerTable textContent mode original revised) i (j - 1)
      = Lcs.cell (alignerTable textContent mode original revised) (i - 1) j ->
      alignerStep textContent mode original revised (Lcs.State i j acc)
      = Some (Lcs.State i (j - 1) (RowPair ADDED None (Some b) ("revised-" +:+ pretty j) :: acc)))
  /\
  (forall (original revised : string) (i j : nat)
          (acc : list DiffSegment) (a b : string),
      0 < i -> 0 < j ->
      Tokens.words original !! (i - 1) = Some a ->
      Tokens.words revised !! (j - 1) = Some b ->
      a <> b ->
      Lcs.cell (wordTable original revised) i (j - 1)
      = Lcs.cell (wordTable original revised) (i - 1) j ->
      wordStep original revised (Lcs.State i j acc)
      = Some (Lcs.State i (j - 1) (Segment DiffType.ADDED b :: acc))).
Proof.
  split.
  - intros mode original revised i j acc a b Hi Hj Ha Hb Hne Htie.
    unfold alignerStep.
    by rewrite (LcsFacts.backtrackStep_tie _ _ _ _ _ _ _ i j acc a b).
  - intros original revised i j acc a b Hi Hj Ha Hb Hne Htie.
    unfold wordStep.
    rewrite (LcsFacts.backtrackStep_tie _ _ _ _ _ _ _ i j acc a b); try done.
    by apply String.eqb_neq.
Qed.

(** ** The word diff *)

(** C7 -- Word-diff reconstruction.  For every two strings, the values of
    the COMMON and DELETED segments of [createDiff], in order, are the tokens
    of the original string, and joined they are the original string; the
    values of the COMMON and ADDED segments are the tokens of the revised
    string, and joined they are the revised string. *)
Theorem createDiff_reconstruction (original revised : string) :
  let originalSide :=
    map value (filter (fun d => type d = DiffType.COMMON \/ type d = DiffType.DELETED)
                      (createDiff original revised)) in
  let revisedSide :=
    map value (filter (fun d => type d = DiffType.COMMON \/ type d = DiffType.ADDED)
                      (createDiff original revised)) in
  originalSide = Tokens.words original /\
  Js.join EmptyString originalSide = original /\
  revisedSide = Tokens.words revised /\
  Js.join EmptyString revisedSide = revised.
Proof.
  assert (map value (filter (fun d => type d = DiffType.COMMON \/ type d = DiffType.DELETED)
                            (createDiff original revised))
          = Tokens.words original) as Ho.
  { unfold createDiff.
    etrans; [|apply (List.map_id (Tokens.words original))].
    apply LcsFacts.run_original; intros; cbn; auto.
    by intros [|]. }
  assert (map value (filter (fun d => type d = DiffType.COMMON \/ type d = DiffType.ADDED)
                            (createDiff original revised))
          = Tokens.words revised) as Hr.
  { unfold createDiff.
    etrans; [|apply (List.map_id (Tokens.words revised))].
    apply LcsFacts.run_revised; intros; cbn; auto.
    - by apply String.eqb_eq.
    - by intros [|]. }
  cbv zeta. rewrite Ho, Hr, !TokensFacts.words_join. done.
Qed.


(** ** Scenarios of the row matcher and of the reconstruction *)

Section Scenarios.

Variable textContent : string -> string.

Local Abbreviation clean := (getCleanTextContent textContent).
Local Abbreviation keyOf := (getFirstTwoLinesKey textContent).

(** A signature is already trimmed. *)
Lemma getFirstTwoLinesKey_trimmed (html : string) :
  Js.trim (keyOf html) = keyOf html.
Proof.
  unfold getFirstTwoLinesKey. destruct (Js.isEmpty html); [done|].
  apply JsFacts.trim_idemp.
Qed.

(** C3, as the program has it -- Row matcher under BY_IDENTIFIER.  For two
    records that are not categories and that agree on whether their
    normalized identifier and normalized procedure are both empty, the
    oracle holds exactly when the identifier fields, markup included, are
    the same string after trimming. *)
Theorem areRowsEqual_step_iff (a b : RowData) :
  category textContent a = false -> category textContent b = false ->
  blankHead textContent a = blankHead textContent b ->
  areRowsEqual textContent step a b = true <->
  Js.trim (field a "Step Order") = Js.trim (field b "Step Order").
Proof.
  intros Ha Hb Hblank. rewrite areRowsEqual_noncategory by done.
  rewrite Hblank, Bool.eqb_reflx. cbn [andb]. apply String.eqb_eq.
Qed.

(** C4, as the program has it -- Mode divergence.  Two one-record
    sequences whose records are not categories, have the same procedure and
    outcome, and identifiers that differ after trimming: under
    BY_IDENTIFIER the aligner returns one DELETED pair followed by one ADDED
    pair; under BY_CONTENT_SIGNATURE, the normalized procedure and its
    signature being non-empty, it returns one MODIFIED pair. *)
Theorem performLcsDiff_mode_divergence (a b : RowData) :
  a !! "Procedure" = b !! "Procedure" ->
  a !! "Expected Outcome" = b !! "Expected Outcome" ->
  category textContent a = false -> category textContent b = false ->
  Js.trim (field a "Step Order") <> Js.trim (field b "Step Order") ->
  rows (performLcsDiff textContent [a] [b] step)
  = [RowPair DELETED (Some a) None "original-1";
     RowPair ADDED None (Some b) "revised-1"] /\
  (clean (field a "Procedure") <> EmptyString ->
   keyOf (field a "Procedure") <> EmptyString ->
   rows (performLcsDiff textContent [a] [b] content)
   = [RowPair MODIFIED (Some a) (Some b) "match-1-1"]).
Proof.
  intros Hproc Hout Hca Hcb Hid.
  assert (field b "Procedure" = field a "Procedure") as Hp
    by (unfold field; by rewrite Hproc).
  apply String.eqb_neq in Hid.
  cbn [performLcsDiff rows]. unfold pairedRows.
  rewrite !Lcs_run_singletons, !areRowsEqual_noncategory by done.
  rewrite Hid, andb_false_r. split; [done|].
  intros Htext Hkey.
  apply JsFacts.isEmpty_false in Htext, Hkey.
  unfold blankHead. rewrite Hp, Htext, !andb_false_r.
  rewrite getFirstTwoLinesKey_trimmed, Hkey, String.eqb_refl.
  cbn [Bool.eqb negb andb].
  unfold matchedPair, matchStatus.
  rewrite isCategory_category, Hca, Hid, andb_false_r. done.
Qed.

(** *** Header search *)

Lemma findHeader_none (rows : list (list string)) (i : nat) :
  noHeaderRow textContent rows -> findHeader textContent i rows = None.
Proof.
  revert i. induction rows as [|row rows IH]; intros i Hno; [done|].
  cbn [findHeader]. rewrite (Hno row) by apply list_elem_of_here.
  apply IH. intros r Hr. apply Hno. by apply list_elem_of_further.
Qed.

Lemma findHeader_some (rows : list (list string)) (i : nat) :
  (exists row, row ∈ rows /\ isHeaderRow textContent row = true) ->
  is_Some (findHeader textContent i rows).
Proof.
  revert i. induction rows as [|row rows IH]; intros i [r [Hr Hhdr]].
  - by apply elem_of_nil in Hr.
  - cbn [findHeader]. destruct (isHeaderRow textContent row) eqn:Hrow; [done|].
    apply IH. exists r. split; [|done].
    apply elem_of_cons in Hr as [-> | Hr]; [congruence|done].
Qed.

(** With a header row in the grid, reconstruction returns a record
    sequence. *)
Lemma processRawData_returns (rawData : list (list string)) :
  (exists row, row ∈ rawData /\ isHeaderRow textContent row = true) ->
  exists records, processRawData textContent rawData = Returns records.
Proof.
  intros Hhdr. unfold processRawData.
  destruct rawData as [|row rest]; [by eexists|].
  destruct (findHeader_some _ 0 Hhdr) as [[headerIndex cleanHeaders] ->].
  by eexists.
Qed.

(** C6, as the program has it -- Header not found.  For every grid with at
    least one row in which no row's normalized cells include the three
    required names, reconstruction throws the header-not-found error; the
    empty grid is returned as the empty sequence. *)
Theorem processRawData_header_not_found (rawData : list (list string)) :
  rawData <> [] -> noHeaderRow textContent rawData ->
  processRawData textContent rawData = Throws headerNotFound.
Proof.
  intros Hne Hno. unfold processRawData.
  destruct rawData as [|row rest]; [done|].
  by rewrite findHeader_none.
Qed.

End Scenarios.

(** *** The reconstruction only depends on the text of the fragments *)

Section Extensional.

Variables tc tc' : string -> string.
Hypothesis same : forall s, tc s = tc' s.

Lemma getCleanTextContent_ext (s : string) :
  getCleanTextContent tc s = getCleanTextContent tc' s.
Proof. unfold getCleanTextContent. by rewrite same. Qed.

Lemma isHeaderRow_ext (row : list string) :
  isHeaderRow tc row = isHeaderRow tc' row.
Proof.
  unfold isHeaderRow. f_equal. f_equal.
  apply map_ext. intros s. apply getCleanTextContent_ext.
Qed.

Lemma findHeader_ext (rows : list (list string)) (i : nat) :
  findHeader tc i rows = findHeader tc' i rows.
Proof.
  revert i. induction rows as [|row rows IH]; intros i; [done|].
  cbn [findHeader]. rewrite isHeaderRow_ext, IH.
  rewrite (map_ext _ _ getCleanTextContent_ext). done.
Qed.

Lemma appendField_ext (r parent : nat) (h : list RowData) (header : string) :
  appendField tc r parent h header = appendField tc' r parent h header.
Proof.
  unfold appendField. destruct ((h !!! r) !! header); [|done].
  by rewrite getCleanTextContent_ext.
Qed.

Lemma mergeStep_ext (cleanHeaders : list string) (st : mergeState) (r : nat) :
  mergeStep tc cleanHeaders st r = mergeStep tc' cleanHeaders st r.
Proof.
  unfold mergeStep. rewrite !getCleanTextContent_ext.
  repeat case_match; try done. f_equal.
  generalize (heap st). induction cleanHeaders as [|hd tl IH]; intros h; [done|].
  cbn [foldl]. by rewrite appendField_ext, IH.
Qed.

Lemma processRawData_ext (rawData : list (list string)) :
  processRawData tc rawData = processRawData tc' rawData.
Proof.
  unfold processRawData. destruct rawData as [|row rest]; [done|].
  rewrite findHeader_ext.
  destruct (findHeader tc' 0 (row :: rest)) as [[headerIndex cleanHeaders]|]; [|done].
  set (items := seq 0 _). set (init := MergeState _ _ _).
  assert (foldl (mergeStep tc cleanHeaders) init items
          = foldl (mergeStep tc' cleanHeaders) init items) as ->; [|done].
  generalize init. induction items as [|r items IH]; intros st; [done|].
  cbn [foldl]. by rewrite mergeStep_ext, IH.
Qed.

End Extensional.

(** C2, as the program has it -- Continuation merge.  For a text extraction
    that leaves the plain texts of the grid as they are, reconstructing the
    grid [step row (1, A); row (procedure B, outcome X); step row (2, C)]
    returns exactly two records: the middle row is not a record of its own,
    and its procedure and outcome are appended to record 1, giving
    (1, AB, X), followed by (2, C). *)
Theorem processRawData_continuation_merge (textContent : string -> string) :
  (forall s, s ∈ gridTexts -> textContent s = s) ->
  processRawData textContent gridContinuation
  = Returns [record "1" "AB" "X"; record "2" "C" ""].
Proof.
  intros Hplain.
  rewrite (processRawData_ext textContent
             (fun s => if decide (s ∈ gridTexts) then s else textContent s)).
  - vm_compute. reflexivity.
  - intros s. case_decide; auto.
Qed.

(** ** The properties on sample data *)

(** C10 -- Two records without identifier that are not categories, one with
    a blank procedure and one with a procedure and an outcome: both
    identifiers are empty after trimming, and the oracle under BY_IDENTIFIER
    answers [false].  The flag of the first is the empty string and the flag
    of the second is [false]; [!==] tells them apart. *)
Theorem areRowsEqual_blank_identifiers_differ :
  category stripTags outcomeOnly = false /\
  category stripTags orphan = false /\
  Js.trim (field outcomeOnly "Step Order") = EmptyString /\
  Js.trim (field orphan "Step Order") = EmptyString /\
  isCategory stripTags outcomeOnly = Js.VStr EmptyString /\
  isCategory stripTags orphan = Js.VBool false /\
  areRowsEqual stripTags step outcomeOnly orphan = false.
Proof. vm_compute. repeat split. Qed.

(** Identifiers that differ only in markup are not equal under
    BY_IDENTIFIER, although their normalized texts are the same. *)
Lemma areRowsEqual_step_markup :
  category stripTags stepOneBold = false /\
  category stripTags stepOne = false /\
  getCleanTextContent stripTags (field stepOneBold "Step Order")
  = getCleanTextContent stripTags (field stepOne "Step Order") /\
  areRowsEqual stripTags step stepOneBold stepOne = false.
Proof. vm_compute. repeat split. Qed.

(** Identifiers that differ by surrounding white space are equal, whatever
    the rest of the two records. *)
Lemma areRowsEqual_step_iff_sample :
  areRowsEqual stripTags step stepOne stepOnePadded = true <->
  Js.trim (field stepOne "Step Order") = Js.trim (field stepOnePadded "Step Order").
Proof.
  apply (areRowsEqual_step_iff stripTags stepOne stepOnePadded);
    vm_compute; reflexivity.
Defined.

(** A middle row with a procedure only is a category row: it is a record of
    its own, and nothing is appended to record 1. *)
Lemma processRawData_procedure_only :
  processRawData stripTags gridProcedureOnly
  = Returns [record "1" "A" ""; record "" "B" ""; record "2" "C" ""] /\
  processRawData stripTags gridProcedureOnly
  <> Returns [record "1" "AB" ""; record "2" "C" ""].
Proof.
  assert (processRawData stripTags gridProcedureOnly
          = Returns [record "1" "A" ""; record "" "B" ""; record "2" "C" ""]) as ->
    by (vm_compute; reflexivity).
  split; [reflexivity|]. intros H. inversion H.
Qed.

Lemma stripTags_gridTexts (s : string) : s ∈ gridTexts -> stripTags s = s.
Proof.
  unfold gridTexts. intros Hs.
  repeat (apply elem_of_cons in Hs as [-> | Hs]; [reflexivity|]).
  by apply elem_of_nil in Hs.
Qed.

(** The continuation scenario with the reference text extraction. *)
Lemma processRawData_continuation_merge_sample :
  processRawData stripTags gridContinuation
  = Returns [record "1" "AB" "X"; record "2" "C" ""].
Proof.
  apply (processRawData_continuation_merge stripTags stripTags_gridTexts).
Defined.

(** The empty grid has no header row, and is returned as the empty
    sequence. *)
Lemma processRawData_empty_grid :
  noHeaderRow stripTags [] /\
  processRawData stripTags [] = Returns [].
Proof.
  split; [|reflexivity]. intros row Hrow. by apply elem_of_nil in Hrow.
Qed.

(** A grid whose first row lacks one of the three names. *)
Lemma processRawData_header_not_found_sample :
  processRawData stripTags [["Step"; "Procedure"]; ["1"; "A"]] = Throws headerNotFound.
Proof.
  apply (processRawData_header_not_found stripTags); [done|].
  intros row Hrow.
  repeat (apply elem_of_cons in Hrow as [-> | Hrow]; [reflexivity|]).
  by apply elem_of_nil in Hrow.
Defined.

(** Identifiers that differ by white space only are the same identifier for
    the matcher: the two records are matched and unchanged in both modes. *)
Lemma performLcsDiff_spaced_identifier :
  stepOne !! "Procedure" = stepOneSpaced !! "Procedure" /\
  stepOne !! "Expected Outcome" = stepOneSpaced !! "Expected Outcome" /\
  field stepOne "Step Order" <> field stepOneSpaced "Step Order" /\
  getFirstTwoLinesKey stripTags (field stepOne "Procedure") = "Open the app" /\
  rows (performLcsDiff stripTags [stepOne] [stepOneSpaced] step)
  = [RowPair UNCHANGED (Some stepOne) (Some stepOneSpaced) "match-1-1"] /\
  rows (performLcsDiff stripTags [stepOne] [stepOneSpaced] content)
  = [RowPair UNCHANGED (Some stepOne) (Some stepOneSpaced) "match-1-1"].
Proof. vm_compute. repeat split. discriminate. Qed.

(** The scenario with identifiers 1 and 2. *)
Lemma performLcsDiff_mode_divergence_sample :
  rows (performLcsDiff stripTags [stepOne] [stepTwo] step)
  = [RowPair DELETED (Some stepOne) None "original-1";
     RowPair ADDED None (Some stepTwo) "revised-1"] /\
  rows (performLcsDiff stripTags [stepOne] [stepTwo] content)
  = [RowPair MODIFIED (Some stepOne) (Some stepTwo) "match-1-1"].
Proof.
  destruct (performLcsDiff_mode_divergence stripTags stepOne stepTwo)
    as [Hstep Hcontent];
    [vm_compute; first [reflexivity | discriminate] ..|].
  split; [exact Hstep|].
  apply Hcontent; vm_compute; discriminate.
Defined.

(** A section heading kept between two versions whose steps differ. *)
Lemma performLcsDiff_category_unchanged_sample :
  RowPair UNCHANGED (Some sectionRow) (Some sectionRow) "match-2-1"
  ∈ rows (performLcsDiff stripTags [stepOne; sectionRow] [sectionRow; stepTwo] content) /\
  status (RowPair UNCHANGED (Some sectionRow) (Some sectionRow) "match-2-1") = UNCHANGED.
Proof.
  assert (RowPair UNCHANGED (Some sectionRow) (Some sectionRow) "match-2-1"
          ∈ rows (performLcsDiff stripTags [stepOne; sectionRow] [sectionRow; stepTwo] content))
    as Hin.
  { assert (rows (performLcsDiff stripTags [stepOne; sectionRow] [sectionRow; stepTwo] content)
            = [RowPair DELETED (Some stepOne) None "original-1";
               RowPair UNCHANGED (Some sectionRow) (Some sectionRow) "match-2-1";
               RowPair ADDED None (Some stepTwo) "revised-2"]) as ->
      by (vm_compute; reflexivity).
    apply list_elem_of_further, list_elem_of_here. }
  split; [exact Hin|].
  apply (performLcsDiff_category_unchanged stripTags
           [stepOne; sectionRow] [sectionRow; stepTwo] content
           (RowPair UNCHANGED (Some sectionRow) (Some sectionRow) "match-2-1")
           sectionRow sectionRow Hin);
    reflexivity.
Defined.

(** One record against one record, and one token against one token: the
    two neighbour cells hold 0. *)
Lemma backtrack_tie_break_sample :
  alignerStep stripTags step [stepOne] [stepTwo] (Lcs.State 1 1 [])
  = Some (Lcs.State 1 0 [RowPair ADDED None (Some stepTwo) "revised-1"]) /\
  wordStep "fox" "dog" (Lcs.State 1 1 [])
  = Some (Lcs.State 1 0 [Segment DiffType.ADDED "dog"]).
Proof.
  split.
  - apply (proj1 (backtrack_tie_break stripTags) step [stepOne] [stepTwo] 1 1 []
             stepOne stepTwo); first [lia | vm_compute; reflexivity].
  - apply (proj2 (backtrack_tie_break stripTags) "fox" "dog" 1 1 [] "fox" "dog");
      first [lia | discriminate | vm_compute; reflexivity].
Defined.

(** * Further properties of the code *)

(** ** More on the two loops *)

Module LcsMore.
Section Loops.

Context {A R : Type}.
Variable equal : A -> A -> bool.
Variable onMatch : nat -> nat -> option A -> option A -> R.
Variable onAdded : nat -> option A -> R.
Variable onDeleted : nat -> option A -> R.
Variables original revised : list A.

Local Abbreviation stepOf := (Lcs.backtrackStep equal onMatch onAdded onDeleted original revised).
Local Abbreviation loopOf := (Lcs.backtrackLoop equal onMatch onAdded onDeleted original revised).
Local Abbreviation runOf := (Lcs.run equal onMatch onAdded onDeleted original revised).

(** An iteration inside the bounds, with what the table says in each case:
    a match, an addition (at the top row, or towards a neighbour that is
    not smaller), or a deletion (at the left column, or towards a strictly
    larger neighbour). *)
Lemma backtrackStep_moves dp i j acc :
  i <= length original -> j <= length revised ->
  (i = 0 /\ j = 0 /\ stepOf dp (Lcs.State i j acc) = None) \/
  (exists a b,
      0 < i /\ 0 < j /\
      original !! (i - 1) = Some a /\ revised !! (j - 1) = Some b /\
      equal a b = true /\
      stepOf dp (Lcs.State i j acc)
      = Some (Lcs.State (i - 1) (j - 1) (onMatch i j (Some a) (Some b) :: acc))) \/
  (exists b,
      0 < j /\ revised !! (j - 1) = Some b /\
      (i = 0 \/
       exists a, 0 < i /\ original !! (i - 1) = Some a /\ equal a b = false /\
                 Lcs.cell dp (i - 1) j <= Lcs.cell dp i (j - 1)) /\
      stepOf dp (Lcs.State i j acc)
      = Some (Lcs.State i (j - 1) (onAdded j (Some b) :: acc))) \/
  (exists a,
      0 < i /\ original !! (i - 1) = Some a /\
      (j = 0 \/
       exists b, 0 < j /\ revised !! (j - 1) = Some b /\ equal a b = false /\
                 Lcs.cell dp i (j - 1) < Lcs.cell dp (i - 1) j) /\
      stepOf dp (Lcs.State i j acc)
      = Some (Lcs.State (i - 1) j (onDeleted i (Some a) :: acc))).
Proof.
  intros Hi Hj. unfold Lcs.backtrackStep. cbn [Lcs.idxI Lcs.idxJ Lcs.out].
  destruct i as [|i'], j as [|j'].
  - left. auto.
  - right. right. left.
    destruct (lookup_lt_is_Some_2 revised (S j' - 1)) as [b Hb]; [lia|].
    exists b. cbn. cbn in Hb. rewrite Hb. repeat split; auto; lia.
  - right. right. right.
    destruct (lookup_lt_is_Some_2 original (S i' - 1)) as [a Ha]; [lia|].
    exists a. cbn. cbn in Ha. rewrite Ha. repeat split; auto; lia.
  - destruct (lookup_lt_is_Some_2 original (S i' - 1)) as [a Ha]; [lia|].
    destruct (lookup_lt_is_Some_2 revised (S j' - 1)) as [b Hb]; [lia|].
    change (0 <? S i') with true. change (0 <? S j') with true.
    change (S i' =? 0) with false. change (S j' =? 0) with false.
    cbn [orb andb]. rewrite Ha, Hb. cbn [Lcs.matches].
    destruct (equal a b) eqn:Heq.
    + right. left. exists a, b. repeat split; try lia; done.
    + destruct (Lcs.cell dp (S i' - 1) (S j') <=? Lcs.cell dp (S i') (S j' - 1)) eqn:Hle.
      * right. right. left. exists b. apply Nat.leb_le in Hle.
        repeat split; try lia; try done. right. exists a. repeat split; try done; lia.
      * right. right. right. exists a.
        apply Nat.leb_gt in Hle. pose proof Hle as Hlt.
        apply Nat.ltb_lt in Hlt. rewrite Hlt.
        repeat split; try lia; try done. right. exists b. repeat split; try done; lia.
Qed.

(** Every entry of the result is built from elements read at the indices it
    carries. *)
Lemma backtrackLoop_Forall_lookup (P : R -> Prop) dp fuel i j acc :
  (forall i j a b, original !! (i - 1) = Some a -> revised !! (j - 1) = Some b ->
                   0 < i -> 0 < j -> equal a b = true ->
                   P (onMatch i j (Some a) (Some b))) ->
  (forall j b, revised !! (j - 1) = Some b -> 0 < j -> P (onAdded j (Some b))) ->
  (forall i a, original !! (i - 1) = Some a -> 0 < i -> P (onDeleted i (Some a))) ->
  i <= length original -> j <= length revised ->
  Forall P acc ->
  Forall P (Lcs.out (loopOf fuel dp (Lcs.State i j acc))).
Proof.
  intros HM HA HD. revert i j acc.
  induction fuel as [|fuel IH]; intros i j acc Hi Hj Hacc; [done|].
  cbn [Lcs.backtrackLoop].
  destruct (LcsFacts.backtrackStep_cases equal onMatch onAdded onDeleted
              original revised dp i j acc Hi Hj)
    as [(-> & -> & ->)|[(a & b & Hi0 & Hj0 & Ha & Hb & Heq & ->)
       |[(b & Hj0 & Hb & ->)|(a & Hi0 & Ha & ->)]]];
    [done | apply IH; [lia | lia | constructor; auto] ..].
Qed.

Lemma run_Forall_lookup (P : R -> Prop) :
  (forall i j a b, original !! (i - 1) = Some a -> revised !! (j - 1) = Some b ->
                   0 < i -> 0 < j -> equal a b = true ->
                   P (onMatch i j (Some a) (Some b))) ->
  (forall j b, revised !! (j - 1) = Some b -> 0 < j -> P (onAdded j (Some b))) ->
  (forall i a, original !! (i - 1) = Some a -> 0 < i -> P (onDeleted i (Some a))) ->
  Forall P runOf.
Proof.
  intros HM HA HD. unfold Lcs.run. apply backtrackLoop_Forall_lookup; auto.
Qed.

(** The number of matches put in front of the result from [(i, j)] on is the
    count the table holds at [(i, j)]. *)
Section Matches.

Variable isMatch : R -> Prop.
Context `{!forall r, Decision (isMatch r)}.
Hypothesis match_isMatch : forall i j a b, isMatch (onMatch i j (Some a) (Some b)).
Hypothesis added_not : forall j b, ~ isMatch (onAdded j (Some b)).
Hypothesis deleted_not : forall i a, ~ isMatch (onDeleted i (Some a)).

Lemma count_pred i j a b :
  0 < i -> 0 < j ->
  original !! (i - 1) = Some a -> revised !! (j - 1) = Some b ->
  Lcs.count equal original revised i j
  = if equal a b then Lcs.count equal original revised (i - 1) (j - 1) + 1
    else Nat.max (Lcs.count equal original revised (i - 1) j)
                 (Lcs.count equal original revised i (j - 1)).
Proof.
  destruct i as [|i'], j as [|j']; try lia. intros _ _.
  replace (S i' - 1) with i' by lia. replace (S j' - 1) with j' by lia.
  apply LcsFacts.count_S.
Qed.

Lemma backtrackLoop_matches fuel i j acc :
  i <= length original -> j <= length revised -> i + j <= fuel ->
  length (filter isMatch
            (Lcs.out (loopOf fuel (Lcs.table equal original revised) (Lcs.State i j acc))))
  = Lcs.count equal original revised i j + length (filter isMatch acc).
Proof.
  set (dp := Lcs.table equal original revised).
  assert (forall i j, i <= length original -> j <= length revised ->
            Lcs.cell dp i j = Lcs.count equal original revised i j) as Hcell
    by (intros; by apply LcsFacts.table_count).
  revert i j acc. induction fuel as [|fuel IH]; intros i j acc Hi Hj Hf.
  - assert (i = 0) as -> by lia. done.
  - cbn [Lcs.backtrackLoop].
    destruct (backtrackStep_moves dp i j acc Hi Hj)
      as [(-> & -> & ->)|[(a & b & Hi0 & Hj0 & Ha & Hb & Heq & ->)
         |[(b & Hj0 & Hb & Hwhy & ->)|(a & Hi0 & Ha & Hwhy & ->)]]].
    + done.
    + rewrite IH by lia. rewrite filter_cons_True by apply match_isMatch.
      cbn [length]. rewrite (count_pred i j a b) by done. rewrite Heq. lia.
    + rewrite IH by lia. rewrite filter_cons_False by apply added_not.
      f_equal. destruct Hwhy as [-> | (a & Hi0 & Ha & Heq & Hle)].
      * by rewrite !LcsFacts.count_0_l.
      * rewrite !Hcell in Hle by lia.
        rewrite (count_pred i j a b) by (done || lia). rewrite Heq. lia.
    + rewrite IH by lia. rewrite filter_cons_False by apply deleted_not.
      f_equal. destruct Hwhy as [-> | (b & Hj0 & Hb & Heq & Hlt)].
      * by rewrite !LcsFacts.count_0_r.
      * rewrite !Hcell in Hlt by lia.
        rewrite (count_pred i j a b) by (done || lia). rewrite Heq. lia.
Qed.

Lemma run_matches :
  length (filter isMatch runOf)
  = Lcs.cell (Lcs.table equal original revised) (length original) (length revised).
Proof.
  unfold Lcs.run. rewrite backtrackLoop_matches by lia.
  rewrite LcsFacts.table_count by lia. cbn. lia.
Qed.

End Matches.

End Loops.

(** A sequence against itself, with an oracle that holds of every element
    and itself: the result is one match per element, in order. *)
Section Diagonal.

Context {A R : Type}.
Variable equal : A -> A -> bool.
Variable onMatch : nat -> nat -> option A -> option A -> R.
Variable onAdded : nat -> option A -> R.
Variable onDeleted : nat -> option A -> R.
Variable xs : list A.
Hypothesis reflexive : forall a, a ∈ xs -> equal a a = true.

Lemma backtrackLoop_diagonal dp fuel i acc :
  i <= length xs -> i <= fuel ->
  Lcs.out (Lcs.backtrackLoop equal onMatch onAdded onDeleted xs xs fuel dp (Lcs.State i i acc))
  = imap (fun k a => onMatch (S k) (S k) (Some a) (Some a)) (take i xs) ++ acc.
Proof.
  revert i acc. induction fuel as [|fuel IH]; intros i acc Hi Hf.
  - assert (i = 0) as -> by lia. done.
  - cbn [Lcs.backtrackLoop]. destruct i as [|i'].
    + done.
    + destruct (lookup_lt_is_Some_2 xs i') as [a Ha]; [lia|].
      assert (equal a a = true) as Heq
        by (apply reflexive; by apply (list_elem_of_lookup_2 _ i')).
      unfold Lcs.backtrackStep. cbn [Lcs.idxI Lcs.idxJ Lcs.out].
      change (0 <? S i') with true. cbn [orb andb].
      replace (S i' - 1) with i' by lia. rewrite Ha. cbn [Lcs.matches].
      rewrite Heq. rewrite IH by lia.
      rewrite (take_S_r _ _ _ Ha), imap_app. cbn [imap].
      rewrite length_take_le by lia. rewrite Nat.add_0_r.
      by rewrite <- app_assoc.
Qed.

Lemma run_diagonal :
  Lcs.run equal onMatch onAdded onDeleted xs xs
  = imap (fun k a => onMatch (S k) (S k) (Some a) (Some a)) xs.
Proof.
  unfold Lcs.run. rewrite backtrackLoop_diagonal by lia.
  by rewrite firstn_all, app_nil_r.
Qed.

End Diagonal.

(** An empty side: everything on the other side is added, or deleted. *)
Section Empty.

Context {A R : Type}.
Variable equal : A -> A -> bool.
Variable onMatch : nat -> nat -> option A -> option A -> R.
Variable onAdded : nat -> option A -> R.
Variable onDeleted : nat -> option A -> R.

Lemma backtrackLoop_added (revised : list A) dp fuel j acc :
  j <= length revised -> j <= fuel ->
  Lcs.out (Lcs.backtrackLoop equal onMatch onAdded onDeleted [] revised fuel dp (Lcs.State 0 j acc))
  = imap (fun k b => onAdded (S k) (Some b)) (take j revised) ++ acc.
Proof.
  revert j acc. induction fuel as [|fuel IH]; intros j acc Hj Hf.
  - assert (j = 0) as -> by lia. done.
  - cbn [Lcs.backtrackLoop]. destruct j as [|j']; [done|].
    destruct (lookup_lt_is_Some_2 revised j') as [b Hb]; [lia|].
    unfold Lcs.backtrackStep. cbn [Lcs.idxI Lcs.idxJ Lcs.out].
    change (0 <? S j') with true. change (0 <? 0) with false.
    cbn [orb andb Nat.eqb]. replace (S j' - 1) with j' by lia. rewrite Hb.
    rewrite IH by lia.
    rewrite (take_S_r _ _ _ Hb), imap_app. cbn [imap].
    rewrite length_take_le by lia. rewrite Nat.add_0_r.
    by rewrite <- app_assoc.
Qed.

Lemma run_added (revised : list A) :
  Lcs.run equal onMatch onAdded onDeleted [] revised
  = imap (fun k b => onAdded (S k) (Some b)) revised.
Proof.
  unfold Lcs.run. cbn [length Nat.add]. rewrite backtrackLoop_added by lia.
  by rewrite firstn_all, app_nil_r.
Qed.

Lemma backtrackLoop_deleted (original : list A) dp fuel i acc :
  i <= length original -> i <= fuel ->
  Lcs.out (Lcs.backtrackLoop equal onMatch onAdded onDeleted original [] fuel dp (Lcs.State i 0 acc))
  = imap (fun k a => onDeleted (S k) (Some a)) (take i original) ++ acc.
Proof.
  revert i acc. induction fuel as [|fuel IH]; intros i acc Hi Hf.
  - assert (i = 0) as -> by lia. done.
  - cbn [Lcs.backtrackLoop]. destruct i as [|i']; [done|].
    destruct (lookup_lt_is_Some_2 original i') as [a Ha]; [lia|].
    unfold Lcs.backtrackStep. cbn [Lcs.idxI Lcs.idxJ Lcs.out].
    change (0 <? S i') with true. change (0 <? 0) with false.
    cbn [orb andb Nat.eqb]. replace (S i' - 1) with i' by lia. rewrite Ha.
    cbn [Lcs.matches]. rewrite IH by lia.
    rewrite (take_S_r _ _ _ Ha), imap_app. cbn [imap].
    rewrite length_take_le by lia. rewrite Nat.add_0_r.
    by rewrite <- app_assoc.
Qed.

Lemma run_deleted (original : list A) :
  Lcs.run equal onMatch onAdded onDeleted original []
  = imap (fun k a => onDeleted (S k) (Some a)) original.
Proof.
  unfold Lcs.run. rewrite Nat.add_0_r. cbn [length].
  rewrite backtrackLoop_deleted by lia.
  by rewrite firstn_all, app_nil_r.
Qed.

End Empty.
End LcsMore.

(** ** The aligner: shape of the pairs, counts, and a sequence against itself *)

Section AlignerMore.

Variable textContent : string -> string.

Local Abbreviation clean := (getCleanTextContent textContent).
Local Abbreviation keyOf := (getFirstTwoLinesKey textContent).

Lemma strictEq_refl (v : Js.value) : Js.strictEq v v = true.
Proof. destruct v; cbn; [apply Bool.eqb_reflx | apply String.eqb_refl]. Qed.

Lemma strictEq_sym (v w : Js.value) : Js.strictEq v w = Js.strictEq w v.
Proof.
  destruct v, w; cbn; try done.
  - by destruct b, b0.
  - apply String.eqb_sym.
Qed.

Lemma truthy_and (v w : Js.value) :
  Js.truthy (Js.and v w) = Js.truthy v && Js.truthy w.
Proof. unfold Js.and. by destruct (Js.truthy v) eqn:Hv. Qed.

(** X1 -- Shape of the pairs.  In every result of the aligner, an ADDED pair
    has no original side and a record of the revised sequence on its
    revised side; a DELETED pair has a record of the original sequence and
    no revised side; every other pair has a record of each sequence, and
    the two are equal under the oracle of the mode. *)
Theorem performLcsDiff_pair_shape (original revised : list RowData) (mode : Mode) :
  Forall (fun p =>
            match status p with
            | ADDED =>
                originalOf p = None /\ exists b, revisedOf p = Some b /\ b ∈ revised
            | DELETED =>
                revisedOf p = None /\ exists a, originalOf p = Some a /\ a ∈ original
            | _ =>
                exists a b, originalOf p = Some a /\ revisedOf p = Some b /\
                            a ∈ original /\ b ∈ revised /\
                            areRowsEqual textContent mode a b = true
            end)
         (rows (performLcsDiff textContent original revised mode)).
Proof.
  cbn [performLcsDiff rows]. unfold pairedRows.
  apply LcsMore.run_Forall_lookup.
  - intros i j a b Ha Hb _ _ Heq. cbn.
    assert (a ∈ original) by by apply (list_elem_of_lookup_2 _ (i - 1)).
    assert (b ∈ revised) by by apply (list_elem_of_lookup_2 _ (j - 1)).
    destruct (matchStatus_cases textContent mode a b) as [-> | ->];
      exists a, b; done.
  - intros j b Hb _. cbn. split; [done|]. exists b. split; [done|].
    by apply (list_elem_of_lookup_2 _ (j - 1)).
  - intros i a Ha _. cbn. split; [done|]. exists a. split; [done|].
    by apply (list_elem_of_lookup_2 _ (i - 1)).
Qed.

(** The four statuses partition the pairs. *)
Lemma countStatus_total (l : list ComparisonRowPair) :
  length l = countStatus ADDED l + countStatus DELETED l
             + countStatus MODIFIED l + countStatus UNCHANGED l.
Proof.
  unfold countStatus. induction l as [|p l IH]; [done|].
  destruct (status p) eqn:Hp;
    repeat (first [rewrite filter_cons_True by (by rewrite Hp)
                  |rewrite filter_cons_False by (by rewrite Hp)]);
    cbn [length]; lia.
Qed.

Lemma length_filter_not (s : ChangeType) (l : list ComparisonRowPair) :
  length (filter (fun p => status p <> s) l) + countStatus s l = length l.
Proof.
  unfold countStatus. induction l as [|p l IH]; [done|].
  destruct (decide (status p = s)) as [Hp|Hp].
  - rewrite (filter_cons_False (fun p => status p <> s)) by tauto.
    rewrite (filter_cons_True (fun p => status p = s)) by done.
    cbn [length]. lia.
  - rewrite (filter_cons_True (fun p => status p <> s)) by done.
    rewrite (filter_cons_False (fun p => status p = s)) by done.
    cbn [length]. lia.
Qed.

(** X2 -- Counts.  The number of pairs is the length of the original
    sequence plus the number of additions, and also the length of the
    revised sequence plus the number of deletions; the three counts of the
    summary together never exceed the number of pairs. *)
Theorem performLcsDiff_counts (original revised : list RowData) (mode : Mode) :
  let result := performLcsDiff textContent original revised mode in
  length (rows result) = length original + added (diffSummary result) /\
  length (rows result) = length revised + deleted (diffSummary result) /\
  added (diffSummary result) + deleted (diffSummary result)
  + modified (diffSummary result) <= length (rows result).
Proof.
  cbv zeta. cbn [performLcsDiff rows diffSummary added deleted modified].
  set (paired := pairedRows textContent mode original revised).
  assert (length (filter (fun p => status p <> ADDED) paired) = length original) as Ho.
  { rewrite <- (length_map originalOf), <- (length_map Some original). f_equal.
    apply LcsFacts.run_original; intros; cbn; try done.
    - destruct (matchStatus_cases textContent mode a b) as [-> | ->]; done.
    - by intros []. }
  assert (length (filter (fun p => status p <> DELETED) paired) = length revised) as Hr.
  { rewrite <- (length_map revisedOf), <- (length_map Some revised). f_equal.
    apply LcsFacts.run_revised; intros; cbn; try done.
    - destruct (matchStatus_cases textContent mode a b) as [-> | ->]; done.
    - by intros []. }
  pose proof (length_filter_not ADDED paired).
  pose proof (length_filter_not DELETED paired).
  pose proof (countStatus_total paired). lia.
Qed.

(** X3 -- The matched pairs are as many as the table says.  The number of
    pairs that are neither ADDED nor DELETED is the value the table holds in
    its last cell, [dp[m][n]]. *)
Theorem performLcsDiff_matched_count (original revised : list RowData) (mode : Mode) :
  length (filter (fun p => status p <> ADDED /\ status p <> DELETED)
                 (rows (performLcsDiff textContent original revised mode)))
  = Lcs.cell (alignerTable textContent mode original revised)
             (length original) (length revised).
Proof.
  cbn [performLcsDiff rows]. unfold pairedRows, alignerTable.
  apply LcsMore.run_matches; intros; cbn.
  - destruct (matchStatus_cases textContent mode a b) as [-> | ->]; done.
  - by intros [? _].
  - by intros [_ ?].
Qed.

(** Under BY_IDENTIFIER every record is equal to itself. *)
Lemma areRowsEqual_step_refl (a : RowData) : areRowsEqual textContent step a a = true.
Proof.
  unfold areRowsEqual. rewrite strictEq_refl. cbn [negb].
  destruct (Js.truthy _); apply String.eqb_refl.
Qed.

Lemma matchStatus_refl (mode : Mode) (a : RowData) :
  matchStatus textContent mode a a = UNCHANGED.
Proof.
  unfold matchStatus. destruct (negb _); [|done].
  destruct mode; by rewrite !String.eqb_refl.
Qed.

Lemma countStatus_imap_unchanged (s : ChangeType) (xs : list RowData)
    (f : nat -> RowData -> ComparisonRowPair) :
  (forall k a, status (f k a) = UNCHANGED) -> s <> UNCHANGED ->
  countStatus s (imap f xs) = 0.
Proof.
  intros Hf Hs. unfold countStatus. revert f Hf.
  induction xs as [|x xs IH]; intros f Hf; [done|].
  cbn [imap]. rewrite filter_cons_False by (rewrite Hf; congruence).
  apply IH. intros k a. apply Hf.
Qed.

(** X4 -- A sequence against itself under BY_IDENTIFIER.  Aligning a
    sequence with itself returns one UNCHANGED pair per record, in order,
    each record paired with itself, and the summary counts nothing. *)
Theorem performLcsDiff_self_step (records : list RowData) :
  rows (performLcsDiff textContent records records step)
  = imap (fun k a =>
            RowPair UNCHANGED (Some a) (Some a)
                    ("match-" +:+ pretty (S k) +:+ "-" +:+ pretty (S k)))
         records /\
  diffSummary (performLcsDiff textContent records records step) = Summary 0 0 0.
Proof.
  assert (pairedRows textContent step records records
          = imap (fun k a =>
                    RowPair UNCHANGED (Some a) (Some a)
                            ("match-" +:+ pretty (S k) +:+ "-" +:+ pretty (S k)))
                 records) as Hrows.
  { unfold pairedRows. rewrite LcsMore.run_diagonal
      by (intros; apply areRowsEqual_step_refl).
    apply imap_ext. intros k a _. unfold matchedPair.
    by rewrite matchStatus_refl. }
  cbn [performLcsDiff rows diffSummary]. rewrite Hrows. split; [done|].
  by rewrite !countStatus_imap_unchanged.
Qed.

(** X5 -- A sequence against itself under BY_CONTENT_SIGNATURE.  When every
    record is a category or has a non-empty signature, aligning the
    sequence with itself returns one UNCHANGED pair per record and the
    summary counts nothing. *)
Theorem performLcsDiff_self_content (records : list RowData) :
  Forall (fun a => category textContent a = true \/
                   keyOf (field a "Procedure") <> EmptyString) records ->
  rows (performLcsDiff textContent records records content)
  = imap (fun k a =>
            RowPair UNCHANGED (Some a) (Some a)
                    ("match-" +:+ pretty (S k) +:+ "-" +:+ pretty (S k)))
         records /\
  diffSummary (performLcsDiff textContent records records content) = Summary 0 0 0.
Proof.
  intros Hall.
  assert (pairedRows textContent content records records
          = imap (fun k a =>
                    RowPair UNCHANGED (Some a) (Some a)
                            ("match-" +:+ pretty (S k) +:+ "-" +:+ pretty (S k)))
                 records) as Hrows.
  { unfold pairedRows. rewrite LcsMore.run_diagonal.
    - apply imap_ext. intros k a _. unfold matchedPair.
      by rewrite matchStatus_refl.
    - intros a Ha. apply (proj1 (Forall_forall _ _) Hall) in Ha.
      unfold areRowsEqual. rewrite strictEq_refl, truthy_and, andb_diag.
      rewrite isCategory_category. cbn [negb].
      destruct (category textContent a) eqn:Hcat; [apply String.eqb_refl|].
      destruct Ha as [? | Hkey]; [done|].
      rewrite getFirstTwoLinesKey_trimmed, String.eqb_refl, andb_true_r.
      apply JsFacts.isEmpty_false in Hkey. by rewrite Hkey. }
  cbn [performLcsDiff rows diffSummary]. rewrite Hrows. split; [done|].
  by rewrite !countStatus_imap_unchanged.
Qed.

(** X6 -- A record without signature is not matched with itself.  Under
    BY_CONTENT_SIGNATURE, a record that is not a category and whose
    procedure has an empty signature, aligned with itself, is reported as
    one DELETED pair followed by one ADDED pair. *)
Theorem performLcsDiff_self_no_signature (a : RowData) :
  category textContent a = false ->
  keyOf (field a "Procedure") = EmptyString ->
  rows (performLcsDiff textContent [a] [a] content)
  = [RowPair DELETED (Some a) None "original-1";
     RowPair ADDED None (Some a) "revised-1"] /\
  diffSummary (performLcsDiff textContent [a] [a] content) = Summary 1 1 0.
Proof.
  intros Hcat Hkey.
  assert (pairedRows textContent content [a] [a]
          = [RowPair DELETED (Some a) None "original-1";
             RowPair ADDED None (Some a) "revised-1"]) as Hrows.
  { unfold pairedRows. rewrite Lcs_run_singletons.
    rewrite areRowsEqual_noncategory by done.
    rewrite Hkey. cbn [Js.trim Js.trimStart Js.trimEnd Js.isEmpty negb andb].
    by rewrite andb_false_r. }
  cbn [performLcsDiff rows diffSummary]. rewrite Hrows. done.
Qed.

Lemma areRowsEqual_comm (mode : Mode) (a b : RowData) :
  areRowsEqual textContent mode a b = areRowsEqual textContent mode b a.
Proof.
  unfold areRowsEqual.
  rewrite !truthy_and, (andb_comm (Js.truthy (isCategory textContent b))).
  rewrite (strictEq_sym (isCategory textContent b)).
  destruct (Js.truthy (isCategory textContent a) && _); [apply String.eqb_sym|].
  destruct (negb _); [done|].
  destruct mode; [apply String.eqb_sym|].
  destruct (String.eqb (keyOf (field a "Procedure")) (keyOf (field b "Procedure"))) eqn:Hk.
  - apply String.eqb_eq in Hk. by rewrite Hk, String.eqb_refl.
  - rewrite (String.eqb_sym (keyOf (field b "Procedure"))), Hk.
    by rewrite !andb_false_r.
Qed.

(** X7 -- The oracle is symmetric, in both modes. *)
Theorem areRowsEqual_sym (mode : Mode) (a b : RowData) :
  areRowsEqual textContent mode a b = areRowsEqual textContent mode b a.
Proof. apply areRowsEqual_comm. Qed.

End AlignerMore.

(** ** [JSON.stringify] tells the relevant fields apart *)

Module JsonFacts.

Lemma escapesPrefixFree_true : escapesPrefixFree = true.
Proof. vm_compute. reflexivity. Qed.

Lemma In_allAscii (c : ascii) : In c allAscii.
Proof.
  unfold allAscii. rewrite <- (ascii_nat_embedding c).
  apply in_map, in_seq. pose proof (nat_ascii_bounded c). lia.
Qed.

Lemma startsWith_app (s x : string) : Js.startsWith s (s +:+ x) = true.
Proof.
  induction s as [|c s IH]; [done|].
  rewrite JsFacts.app_cons. cbn [Js.startsWith]. by rewrite Ascii.eqb_refl, IH.
Qed.

Lemma startsWith_split (s t : string) :
  Js.startsWith s t = true -> t = s +:+ Js.drop (String.length s) t.
Proof.
  revert t. induction s as [|c s IH]; intros t; [done|].
  destruct t as [|d t]; [done|]. cbn [Js.startsWith String.length Js.drop].
  intros [Hc Hs]%andb_prop. apply Ascii.eqb_eq in Hc as ->.
  by rewrite JsFacts.app_cons, <- (IH t Hs).
Qed.

Lemma prefixCompatible_app (s t x y : string) :
  s +:+ x = t +:+ y -> prefixCompatible s t = true.
Proof.
  unfold prefixCompatible. revert t. induction s as [|c s IH]; intros t H.
  - by destruct t.
  - destruct t as [|d t]; [by rewrite orb_true_r|].
    rewrite !JsFacts.app_cons in H. injection H as -> H.
    cbn [Js.startsWith]. rewrite Ascii.eqb_refl. cbn [andb]. by apply IH.
Qed.

Lemma app_inv_head (s x y : string) : s +:+ x = s +:+ y -> x = y.
Proof.
  induction s as [|c s IH]; [done|].
  rewrite !JsFacts.app_cons. intros [= H]. by apply IH.
Qed.

(** The escapes form a prefix code. *)
Lemma escape_inj_app (c c' : ascii) (x y : string) :
  Json.escape c +:+ x = Json.escape c' +:+ y -> c = c' /\ x = y.
Proof.
  intros H. pose proof escapesPrefixFree_true as Hall.
  unfold escapesPrefixFree in Hall.
  rewrite forallb_forall in Hall. specialize (Hall c (In_allAscii c)).
  apply andb_prop in Hall as [_ Hall].
  rewrite forallb_forall in Hall. specialize (Hall c' (In_allAscii c')).
  rewrite (prefixCompatible_app _ _ _ _ H) in Hall. cbn in Hall.
  apply Ascii.eqb_eq in Hall as <-. split; [done|]. by apply app_inv_head in H.
Qed.

Lemma escape_not_dquote (c : ascii) (x y : string) :
  Json.dquote +:+ x <> Json.escape c +:+ y.
Proof.
  intros H. pose proof escapesPrefixFree_true as Hall.
  unfold escapesPrefixFree in Hall.
  rewrite forallb_forall in Hall. specialize (Hall c (In_allAscii c)).
  apply andb_prop in Hall as [Hall _].
  by rewrite (prefixCompatible_app _ _ _ _ H) in Hall.
Qed.

(** An escaped string followed by the closing quote can be read back in one
    way only. *)
Lemma escapeAll_inj_app (s s' x y : string) :
  Json.escapeAll s +:+ Json.dquote +:+ x = Json.escapeAll s' +:+ Json.dquote +:+ y ->
  s = s' /\ x = y.
Proof.
  revert s'. induction s as [|c s IH]; intros [|c' s'];
    cbn [Json.escapeAll]; rewrite ?JsFacts.app_nil_l, ?JsFacts.app_assoc; intros H.
  - split; [done|]. by apply app_inv_head in H.
  - by apply escape_not_dquote in H.
  - symmetry in H. by apply escape_not_dquote in H.
  - apply escape_inj_app in H as [-> H]. apply IH in H as [-> ->]. done.
Qed.

Lemma quote_inj_app (s s' x y : string) :
  Json.quote s +:+ x = Json.quote s' +:+ y -> s = s' /\ x = y.
Proof.
  unfold Json.quote. rewrite !JsFacts.app_assoc. intros H.
  apply app_inv_head in H. by apply escapeAll_inj_app in H.
Qed.

(** The serialization of the pair determines both fields, a missing field
    included. *)
Ltac json_peel H :=
  let E := fresh "E" in
  first
    [ apply quote_inj_app in H as [E H];
      first [discriminate E | subst]
    | apply app_inv_head in H
    | exfalso; revert H; unfold Json.quote, Json.dquote;
      rewrite ?JsFacts.app_cons, ?JsFacts.app_nil_l; discriminate ].

Lemma stringifyRelevant_inj (p o p' o' : option string) :
  Json.stringifyRelevant p o = Json.stringifyRelevant p' o' -> p = p' /\ o = o'.
Proof.
  unfold Json.stringifyRelevant. intros H. apply app_inv_head in H.
  destruct p as [p|], o as [o|], p' as [p'|], o' as [o'|];
    cbn [Json.property app Js.join] in H;
    rewrite ?JsFacts.app_assoc, ?JsFacts.app_nil_l in H;
    repeat json_peel H; done.
Qed.

End JsonFacts.

(** ** The matcher as a relation, and the status of a match *)

Section MatcherMore.

Variable textContent : string -> string.

Local Abbreviation clean := (getCleanTextContent textContent).
Local Abbreviation keyOf := (getFirstTwoLinesKey textContent).

(** X8 -- Status of a match under BY_IDENTIFIER.  A matched pair is
    UNCHANGED exactly when its original record is a category, or the two
    records have the same Procedure and the same Expected Outcome property,
    markup included, a missing property being different from an empty
    one. *)
Theorem matchStatus_step_unchanged (a b : RowData) :
  matchStatus textContent step a b = UNCHANGED <->
  category textContent a = true \/
  (a !! "Procedure" = b !! "Procedure" /\
   a !! "Expected Outcome" = b !! "Expected Outcome").
Proof.
  unfold matchStatus. rewrite isCategory_category.
  destruct (category textContent a); cbn [negb]; [by split; auto|].
  destruct (String.eqb _ _) eqn:Hjson.
  - apply String.eqb_eq, JsonFacts.stringifyRelevant_inj in Hjson.
    split; auto.
  - split; [done|]. intros [? | [Hp Ho]]; [done|].
    rewrite Hp, Ho, String.eqb_refl in Hjson. done.
Qed.

Lemma areRowsEqual_categories (mode : Mode) (a b : RowData) :
  category textContent a = true -> category textContent b = true ->
  areRowsEqual textContent mode a b
  = String.eqb (clean (field a "Procedure")) (clean (field b "Procedure")).
Proof.
  intros Ha Hb. unfold areRowsEqual.
  by rewrite truthy_and, !isCategory_category, Ha, Hb.
Qed.

Lemma areRowsEqual_category_other (mode : Mode) (a b : RowData) :
  category textContent a = true -> category textContent b = false ->
  areRowsEqual textContent mode a b = false.
Proof.
  intros Ha Hb. unfold areRowsEqual.
  rewrite truthy_and, !isCategory_category, Ha, Hb. cbn [andb].
  pose proof (isCategory_category textContent a) as Hta.
  pose proof (isCategory_category textContent b) as Htb.
  rewrite Ha in Hta. rewrite Hb in Htb.
  destruct (isCategory textContent a) as [[]|sa] eqn:Hfa,
           (isCategory textContent b) as [[]|sb] eqn:Hfb; try done.
  by destruct sa, sb.
Qed.

(** X9 -- The oracle is transitive, in both modes. *)
Theorem areRowsEqual_trans (mode : Mode) (a b c : RowData) :
  areRowsEqual textContent mode a b = true ->
  areRowsEqual textContent mode b c = true ->
  areRowsEqual textContent mode a c = true.
Proof.
  destruct (category textContent a) eqn:Ha, (category textContent b) eqn:Hb,
           (category textContent c) eqn:Hc;
    rewrite ?areRowsEqual_categories, ?areRowsEqual_noncategory by done;
    rewrite ?(areRowsEqual_category_other mode a b),
            ?(areRowsEqual_category_other mode b c),
            ?(areRowsEqual_comm textContent mode a b),
            ?(areRowsEqual_comm textContent mode b c),
            ?(areRowsEqual_category_other mode b a),
            ?(areRowsEqual_category_other mode c b) by done;
    try done.
  - intros H1%String.eqb_eq H2%String.eqb_eq. apply String.eqb_eq. congruence.
  - intros [Hb1 H1]%andb_prop [Hb2 H2]%andb_prop.
    apply Bool.eqb_prop in Hb1, Hb2. rewrite Hb1, Hb2, Bool.eqb_reflx.
    cbn [andb]. destruct mode.
    + apply String.eqb_eq in H1, H2. apply String.eqb_eq. congruence.
    + apply andb_prop in H1 as [Hk1 H1], H2 as [Hk2 H2].
      apply String.eqb_eq in H1, H2. rewrite Hk1. cbn [andb].
      apply String.eqb_eq. congruence.
Qed.

End MatcherMore.

(** ** The word diff: empty and identical input, and what is rendered *)

Lemma imap_const_map {A B : Type} (f : A -> B) (l : list A) :
  imap (fun _ a => f a) l = map f l.
Proof.
  induction l as [|a l IH]; [done|]. cbn [imap map]. f_equal. exact IH.
Qed.

(** X10 -- An empty side of the word diff.  With an empty original every
    token of the revised text is an ADDED segment, in order; with an empty
    revised text every token of the original is a DELETED segment. *)
Theorem createDiff_empty_side (text : string) :
  createDiff EmptyString text = map (Segment DiffType.ADDED) (Tokens.words text) /\
  createDiff text EmptyString = map (Segment DiffType.DELETED) (Tokens.words text).
Proof.
  unfold createDiff. change (Tokens.words EmptyString) with (@nil string). split.
  - rewrite LcsMore.run_added.
    exact (imap_const_map (Segment DiffType.ADDED) (Tokens.words text)).
  - rewrite LcsMore.run_deleted.
    exact (imap_const_map (Segment DiffType.DELETED) (Tokens.words text)).
Qed.

(** X11 -- The word diff of a text with itself: every token is a COMMON
    segment, in order. *)
Theorem createDiff_same_text (text : string) :
  createDiff text text = map (Segment DiffType.COMMON) (Tokens.words text).
Proof.
  unfold createDiff. rewrite LcsMore.run_diagonal.
  - exact (imap_const_map (Segment DiffType.COMMON) (Tokens.words text)).
  - intros a _. apply String.eqb_refl.
Qed.

(** X12 -- No segment is empty, and every segment is a token of the side it
    comes from. *)
Theorem createDiff_segments (original revised : string) :
  Forall (fun d =>
            value d <> EmptyString /\
            match type d with
            | DiffType.ADDED => value d ∈ Tokens.words revised
            | DiffType.DELETED => value d ∈ Tokens.words original
            | DiffType.COMMON =>
                value d ∈ Tokens.words original /\ value d ∈ Tokens.words revised
            end)
         (createDiff original revised).
Proof.
  unfold createDiff. apply LcsMore.run_Forall_lookup.
  - intros i j a b Ha Hb _ _ Heq. apply String.eqb_eq in Heq as <-.
    apply list_elem_of_lookup_2 in Ha, Hb. cbn.
    split; [by apply (TokensFacts.words_nonempty original)|done].
  - intros j b Hb _. apply list_elem_of_lookup_2 in Hb. cbn.
    split; [by apply (TokensFacts.words_nonempty revised)|done].
  - intros i a Ha _. apply list_elem_of_lookup_2 in Ha. cbn.
    split; [by apply (TokensFacts.words_nonempty original)|done].
Qed.

Lemma join_render_without (skip : Element -> bool) (keep : DiffSegment -> Prop)
    `{!forall d, Decision (keep d)} (f : nat -> DiffSegment -> Element)
    (diff : list DiffSegment) :
  (forall k d, textWithout skip (f k d) = if decide (keep d) then value d else EmptyString) ->
  Js.join EmptyString (map (textWithout skip) (imap f diff))
  = Js.join EmptyString (map value (filter keep diff)).
Proof.
  revert f. induction diff as [|d diff IH]; intros f Hf; [done|].
  cbn [imap map]. rewrite JsFacts.join_empty_cons, Hf, (IH (f ∘ S)) by (intros; apply Hf).
  destruct (decide (keep d)) as [Hk|Hk].
  - rewrite filter_cons_True by done. cbn [map].
    by rewrite JsFacts.join_empty_cons.
  - rewrite filter_cons_False by done. apply JsFacts.app_nil_l.
Qed.

(** X13 -- What [TextDiff] shows.  For every two fragments, the markup of
    the rendered element read without the struck-out parts is the revised
    fragment, and read without the highlighted additions it is the original
    fragment. *)
Theorem TextDiff_shows (originalText revisedText : string) :
  textWithout isDeletion (TextDiff originalText revisedText) = revisedText /\
  textWithout isInsertion (TextDiff originalText revisedText) = originalText.
Proof.
  unfold TextDiff.
  destruct (String.eqb originalText revisedText) eqn:Heq.
  - apply String.eqb_eq in Heq as <-. done.
  - cbn [textWithout]. split.
    + rewrite (join_render_without isDeletion
                 (fun d => type d = DiffType.COMMON \/ type d = DiffType.ADDED)).
      * assert (map value (filter (fun d => type d = DiffType.COMMON \/ type d = DiffType.ADDED)
                                  (createDiff originalText revisedText))
                = Tokens.words revisedText) as ->; [|apply TokensFacts.words_join].
        unfold createDiff.
        etrans; [|apply (List.map_id (Tokens.words revisedText))].
        apply LcsFacts.run_revised; intros; cbn; auto.
        -- by apply String.eqb_eq.
        -- by intros [|].
      * intros k [[] v]; cbn; destruct (decide _) as [Hd|Hd]; try done;
          first [by destruct Hd | by (exfalso; apply Hd; auto)].
    + rewrite (join_render_without isInsertion
                 (fun d => type d = DiffType.COMMON \/ type d = DiffType.DELETED)).
      * assert (map value (filter (fun d => type d = DiffType.COMMON \/ type d = DiffType.DELETED)
                                  (createDiff originalText revisedText))
                = Tokens.words originalText) as ->; [|apply TokensFacts.words_join].
        unfold createDiff.
        etrans; [|apply (List.map_id (Tokens.words originalText))].
        apply LcsFacts.run_original; intros; cbn; auto.
        by intros [|].
      * intros k [[] v]; cbn; destruct (decide _) as [Hd|Hd]; try done;
          first [by destruct Hd | by (exfalso; apply Hd; auto)].
Qed.

(** ** Reconstruction: what the merge loop keeps *)

Section Reconstruction.

Variable textContent : string -> string.

Local Abbreviation clean := (getCleanTextContent textContent).

(** A normalized text is trimmed. *)
Lemma getCleanTextContent_trimmed (html : string) : Js.trim (clean html) = clean html.
Proof.
  unfold getCleanTextContent. destruct (Js.isEmpty html); [done|].
  apply JsFacts.trim_idemp.
Qed.

Lemma extends_refl (row : RowData) : extends row row.
Proof.
  intros k. destruct (row !! k) as [v|] eqn:Hk; [|done].
  exists EmptyString. by rewrite JsFacts.app_nil_r.
Qed.

Lemma extends_trans (a b c : RowData) : extends a b -> extends b c -> extends a c.
Proof.
  intros Hab Hbc k. specialize (Hab k). specialize (Hbc k).
  destruct (a !! k) as [v|].
  - destruct Hab as [s1 Hb]. rewrite Hb in Hbc. destruct Hbc as [s2 Hc].
    exists (s1 +:+ s2). by rewrite Hc, JsFacts.app_assoc.
  - by rewrite Hab in Hbc.
Qed.

(** The columns of a row object are the headers. *)
Lemma toRowObject_columns (cleanHeaders cells : list string) (k : string) :
  is_Some (toRowObject cleanHeaders cells !! k) <-> k ∈ cleanHeaders.
Proof.
  unfold toRowObject.
  assert (forall (l : list (nat * string)) (acc : RowData),
            is_Some (foldl (fun (rowObject : RowData) (h : nat * string) =>
                              <[h.2 := default EmptyString (cells !! h.1)]> rowObject)
                           acc l !! k)
            <-> is_Some (acc !! k) \/ k ∈ map snd l) as Hfold.
  { induction l as [|[i h] l IH]; intros acc; cbn [foldl map].
    - rewrite elem_of_nil. tauto.
    - rewrite IH, elem_of_cons. cbn [fst snd].
      destruct (decide (h = k)) as [->|Hne].
      + rewrite lookup_insert_eq. split; [auto|]. intros _. left. by eexists.
      + rewrite lookup_insert_ne by done. split; [tauto|].
        intros [?|[?|?]]; [tauto|congruence|tauto]. }
  rewrite Hfold, lookup_empty.
  assert (map snd (imap pair cleanHeaders) = cleanHeaders) as ->.
  { assert (forall (g : nat -> string -> nat * string) (l : list string),
              (forall i h, snd (g i h) = h) -> map snd (imap g l) = l) as Himap.
    { intros g l. revert g. induction l as [|x l IH]; intros g Hg; [done|].
      cbn [imap map]. rewrite Hg. f_equal. apply IH. intros i h. apply Hg. }
    by apply Himap. }
  split; [intros [[? [=]]|?]; done | auto].
Qed.

Section Merge.

Variable cleanHeaders : list string.
Variable structured : list RowData.
Hypothesis columns :
  forall row h, row ∈ structured -> h ∈ cleanHeaders -> is_Some (row !! h).

(** The continuation loop over the headers only changes the parent: it
    appends to cells the parent has, and leaves the identifier alone when
    the continuation row has no normalized identifier. *)
Lemma appendFields (r parent : nat) (hs : list string) (h : list RowData)
    (row rec : RowData) :
  r <> parent ->
  h !! r = Some row -> h !! parent = Some rec ->
  (forall hd, hd ∈ hs -> is_Some (rec !! hd)) ->
  isTestStepRow textContent row = false ->
  exists rec',
    foldl (appendField textContent r parent) h hs = <[parent := rec']> h /\
    extends rec rec' /\ rec' !! "Step Order" = rec !! "Step Order".
Proof.
  intros Hne Hrow. revert h rec Hrow.
  induction hs as [|hd hs IH]; intros h rec Hrow Hrec Hcols Hstep.
  - exists rec. cbn [foldl]. split; [by rewrite list_insert_id|].
    split; [apply extends_refl|done].
  - cbn [foldl].
    assert (exists rec1,
              appendField textContent r parent h hd = <[parent := rec1]> h /\
              extends rec rec1 /\ rec1 !! "Step Order" = rec !! "Step Order" /\
              (forall x, is_Some (rec !! x) -> is_Some (rec1 !! x)))
      as (rec1 & -> & Hext1 & Hid1 & Hkeys1).
    { unfold appendField.
      rewrite (list_lookup_total_correct _ _ _ Hrow),
              (list_lookup_total_correct _ _ _ Hrec).
      destruct (row !! hd) as [contentToAppend|] eqn:Hcontent;
        [|exists rec; rewrite list_insert_id by done;
          repeat split; [apply extends_refl|done..]].
      destruct (negb (Js.isEmpty contentToAppend) &&
                negb (Js.isEmpty (clean contentToAppend))) eqn:Htest;
        [|exists rec; rewrite list_insert_id by done;
          repeat split; [apply extends_refl|done..]].
      destruct (Hcols hd) as [existing Hexisting]; [apply list_elem_of_here|].
      rewrite Hexisting. cbn [default].
      exists (<[hd := if Js.isEmpty existing then contentToAppend
                      else existing +:+ contentToAppend]> rec).
      split; [done|]. repeat split.
      - intros k. destruct (decide (hd = k)) as [<-|Hk].
        + rewrite Hexisting, lookup_insert_eq. exists contentToAppend.
          by destruct existing.
        + rewrite lookup_insert_ne by done.
          destruct (rec !! k) as [v|]; [|done].
          exists EmptyString. by rewrite JsFacts.app_nil_r.
      - destruct (decide (hd = "Step Order")) as [->|Hk];
          [|by rewrite lookup_insert_ne].
        exfalso. unfold isTestStepRow, field in Hstep.
        rewrite Hcontent in Hstep. cbn [default from_option id] in Hstep.
        rewrite getCleanTextContent_trimmed in Hstep.
        apply andb_prop in Htest as [_ Htest].
        by rewrite negb_false_iff in Hstep; rewrite Hstep in Htest.
      - intros x Hx. destruct (decide (hd = x)) as [<-|Hk].
        + rewrite lookup_insert_eq. by eexists.
        + by rewrite lookup_insert_ne. }
    assert (parent < length h) as Hlt by (by apply lookup_lt_Some in Hrec).
    destruct (IH (<[parent := rec1]> h) rec1) as (rec' & -> & Hext & Hid).
    + by rewrite list_lookup_insert_ne.
    + by rewrite list_lookup_insert_eq.
    + intros x Hx. apply Hkeys1, Hcols. by apply list_elem_of_further.
    + done.
    + exists rec'. rewrite list_insert_insert_eq. split; [done|].
      split; [by apply (extends_trans _ rec1)|congruence].
Qed.

(** One row of the merge loop keeps the invariant. *)
Lemma mergeStep_mergeInv (k : nat) (st : mergeState) :
  k < length structured ->
  mergeInv textContent structured k st ->
  mergeInv textContent structured (S k) (mergeStep textContent cleanHeaders st k).
Proof.
  intros Hk (Hlen & Hext & Hfresh & Hmerged & Hparent).
  destruct (lookup_lt_is_Some_2 structured k Hk) as [row Hrow].
  assert (heap st !! k = Some row) as Hheap by (by rewrite Hfresh).
  assert (mergedRows st ++ [k] `sublist_of` seq 0 (S k)) as Hpush
    by (rewrite seq_S; by apply sublist_app).
  assert (mergedRows st `sublist_of` seq 0 (S k)) as Hkeep
    by (rewrite seq_S; by apply sublist_inserts_r).
  unfold mergeStep. rewrite (list_lookup_total_correct _ _ _ Hheap).
  destruct (Js.isEmpty (clean (field row "Step Order")) && _ && _) eqn:Hcat.
  { refine (conj Hlen (conj Hext (conj _ (conj Hpush _)))).
    - intros r Hr. apply Hfresh. lia.
    - done. }
  destruct (negb (Js.isEmpty (Js.trim (clean (field row "Step Order"))))) eqn:Hstep.
  { refine (conj Hlen (conj Hext (conj _ (conj Hpush _)))).
    - intros r Hr. apply Hfresh. lia.
    - intros p [= <-]. split; [lia|]. by exists row. }
  destruct (lastParentRow st) as [parent|] eqn:Hlast.
  2:{ refine (conj Hlen (conj Hext (conj _ (conj Hpush _)))).
      - intros r Hr. apply Hfresh. lia.
      - done. }
  destruct (Hparent parent eq_refl) as (Hplt & prow & Hprow & Hpstep).
  destruct (lookup_lt_is_Some_2 (heap st) parent) as [prec Hprec]; [lia|].
  destruct (Hext parent prow prec Hprow Hprec) as (Hpext & Hpid & _).
  destruct (appendFields k parent cleanHeaders (heap st) row prec)
    as (rec' & Hfold & Hext' & Hid'); try done; try lia.
  { intros hd Hhd.
    destruct (columns prow hd) as [v Hv];
      [by apply (list_elem_of_lookup_2 _ parent)|done|].
    specialize (Hpext hd). rewrite Hv in Hpext. destruct Hpext as [? ->]. by eexists. }
  rewrite Hfold. unfold mergeInv. cbn [heap mergedRows lastParentRow].
  refine (conj _ (conj _ (conj _ (conj Hkeep _)))).
  - by rewrite length_insert.
  - intros r row0 rec Hrow0 Hrec0.
    destruct (decide (r = parent)) as [->|Hr].
    + rewrite list_lookup_insert_eq in Hrec0 by lia. simplify_eq.
      split; [by apply (extends_trans _ prec)|]. split; [congruence|by right].
    + rewrite list_lookup_insert_ne in Hrec0 by done. by apply (Hext r).
  - intros r Hr. rewrite list_lookup_insert_ne by lia. apply Hfresh. lia.
  - intros p [= <-]. split; [lia|]. by exists prow.
Qed.

Lemma mergeLoop_mergeInv (len k : nat) (st : mergeState) :
  k + len <= length structured ->
  mergeInv textContent structured k st ->
  mergeInv textContent structured (k + len)
           (foldl (mergeStep textContent cleanHeaders) st (seq k len)).
Proof.
  revert k st. induction len as [|len IH]; intros k st Hlen Hinv.
  - by rewrite Nat.add_0_r.
  - cbn [seq foldl]. replace (k + S len) with (S k + len) by lia.
    apply IH; [lia|]. apply mergeStep_mergeInv; [lia|done].
Qed.

End Merge.


Lemma findHeader_app (pre : list (list string)) (hdr : list string)
    (data : list (list string)) (i : nat) :
  noHeaderRow textContent pre -> isHeaderRow textContent hdr = true ->
  findHeader textContent i (pre ++ hdr :: data) = Some (i + length pre, map clean hdr).
Proof.
  revert i. induction pre as [|row pre IH]; intros i Hpre Hhdr.
  - cbn [app findHeader length]. by rewrite Hhdr, Nat.add_0_r.
  - cbn [app findHeader]. rewrite (Hpre row) by apply list_elem_of_here.
    rewrite IH; [|intros r Hr; apply Hpre; by apply list_elem_of_further|done].
    cbn [length]. do 2 f_equal. lia.
Qed.

(** What [processRawData] returns, from the rows below the header row. *)
Lemma processRawData_picked (rawData : list (list string)) (records : list RowData) :
  processRawData textContent rawData = Returns records ->
  exists picked,
    picked `sublist_of` seq 0 (length (structuredData textContent rawData)) /\
    Forall2 (fun r record =>
               exists row,
                 structuredData textContent rawData !! r = Some row /\
                 extends row record /\
                 record !! "Step Order" = row !! "Step Order" /\
                 (record = row \/ isTestStepRow textContent row = true))
            picked records.
Proof.
  unfold processRawData, structuredData.
  destruct rawData as [|first rest]; [intros [= <-]; by exists []|].
  destruct (findHeader textContent 0 (first :: rest))
    as [[headerIndex cleanHeaders]|] eqn:Hfind; [|done].
  set (structured := map (toRowObject cleanHeaders) (drop (headerIndex + 1) (first :: rest))).
  intros [= <-].
  assert (mergeInv textContent structured 0 (MergeState structured [] None)) as Hinit.
  { refine (conj eq_refl (conj _ (conj _ (conj _ _)))); try done.
    cbn [heap]. intros r row rec Hrow Hrec. simplify_eq.
    split; [apply extends_refl|]. split; [done|by left]. }
  apply (mergeLoop_mergeInv cleanHeaders structured) with (len := length structured)
    in Hinit; [| |lia].
  2:{ intros row h Hrow Hh. subst structured.
      apply list_elem_of_In, in_map_iff in Hrow as (cells & <- & _).
      by apply toRowObject_columns. }
  cbn [Nat.add] in Hinit.
  set (final := foldl _ _ _) in *.
  destruct Hinit as (Hlen & Hext & _ & Hmerged & _).
  exists (mergedRows final). split; [done|].
  assert (forall r, r ∈ mergedRows final -> r < length structured) as Hbound.
  { intros r Hr. apply (elem_of_sublist _ _ _ Hr) in Hmerged.
    apply elem_of_seq in Hmerged. lia. }
  clear Hmerged. induction (mergedRows final) as [|r picked IH]; [constructor|].
  cbn [map]. constructor.
  - destruct (lookup_lt_is_Some_2 structured r) as [row Hrow];
      [apply Hbound, list_elem_of_here|].
    destruct (lookup_lt_is_Some_2 (heap final) r) as [rec Hrec];
      [rewrite Hlen; apply Hbound, list_elem_of_here|].
    rewrite (list_lookup_total_correct _ _ _ Hrec).
    exists row. split; [done|]. by apply (Hext r).
  - apply IH. intros r' Hr'. apply Hbound. by apply list_elem_of_further.
Qed.

(** X14 -- Reconstruction takes rows in order and only appends.  The records
    that [processRawData] returns come from rows below the header row,
    taken in the order of the grid, at most one record per row; every
    record has the columns of its row, each cell starting with the cell of
    the row; its identifier cell is the one of the row; and a record whose
    row is not a step row is the row itself. *)
Theorem processRawData_records (rawData : list (list string)) (records : list RowData) :
  processRawData textContent rawData = Returns records ->
  exists picked,
    picked `sublist_of` seq 0 (length (structuredData textContent rawData)) /\
    Forall2 (fun r record =>
               exists row,
                 structuredData textContent rawData !! r = Some row /\
                 extends row record /\
                 record !! "Step Order" = row !! "Step Order" /\
                 (record = row \/ isTestStepRow textContent row = true))
            picked records.
Proof. apply processRawData_picked. Qed.


(** X16 -- Rows above the header row are ignored.  With rows that are not
    header rows put above a grid that starts with a header row,
    reconstruction returns what it returns for the grid alone; a grid that
    ends with its header row gives the empty sequence. *)
Theorem processRawData_above_header (pre : list (list string)) (hdr : list string)
    (data : list (list string)) :
  noHeaderRow textContent pre -> isHeaderRow textContent hdr = true ->
  processRawData textContent (pre ++ hdr :: data)
  = processRawData textContent (hdr :: data) /\
  processRawData textContent (pre ++ [hdr]) = Returns [].
Proof.
  intros Hpre Hhdr.
  assert (forall data, processRawData textContent (pre ++ hdr :: data)
                       = processRawData textContent (hdr :: data)) as Hskip.
  { intros data'. unfold processRawData.
    rewrite (findHeader_app pre hdr data' 0 Hpre Hhdr).
    assert (findHeader textContent 0 (hdr :: data') = Some (0, map clean hdr)) as ->
      by (cbn [findHeader]; by rewrite Hhdr).
    cbn [length Nat.add app].
    replace (drop (length pre + 1) (pre ++ hdr :: data')) with data'.
    - by destruct pre.
    - rewrite drop_app_add'; [done|lia]. }
  split; [apply Hskip|]. rewrite Hskip. unfold processRawData.
  cbn [findHeader]. by rewrite Hhdr.
Qed.

End Reconstruction.

(** ** The caller *)

Section Caller.

Variable textContent : string -> string.

Lemma handleCompare_done (originalRawData revisedRawData : list (list string))
    (mode : Mode) (result : ComparisonOutput)
    (request : option (DiffSummary * list ComparisonRowPair)) :
  handleCompare textContent originalRawData revisedRawData mode
  = ComparisonDone result request ->
  exists original revised,
    processRawData textContent originalRawData = Returns original /\
    processRawData textContent revisedRawData = Returns revised /\
    (original <> [] \/ revised <> []) /\
    result = performLcsDiff textContent original revised mode /\
    request = (if 0 <? length (take 10 (filter (fun r => status r <> UNCHANGED) (rows result)))
               then Some (diffSummary result,
                          take 10 (filter (fun r => status r <> UNCHANGED) (rows result)))
               else None).
Proof.
  unfold handleCompare.
  destruct (processRawData textContent originalRawData) as [original|]; [|done].
  destruct (processRawData textContent revisedRawData) as [revised|]; [|done].
  destruct ((length original =? 0) && (length revised =? 0)) eqn:Hempty; [done|].
  intros [= <- <-]. exists original, revised. repeat split; try done.
  destruct original, revised; cbn in Hempty; try done; auto.
Qed.

(** X17 -- A comparison that goes through is not empty.  When
    [handleCompare] produces a result, the result has at least one pair. *)
Theorem handleCompare_not_empty (originalRawData revisedRawData : list (list string))
    (mode : Mode) (result : ComparisonOutput)
    (request : option (DiffSummary * list ComparisonRowPair)) :
  handleCompare textContent originalRawData revisedRawData mode
  = ComparisonDone result request ->
  0 < length (rows result).
Proof.
  intros (original & revised & _ & _ & Hne & -> & _)%handleCompare_done.
  assert (length original <= length (rows (performLcsDiff textContent original revised mode)) /\
          length revised <= length (rows (performLcsDiff textContent original revised mode)))
    as [Ho Hr].
  { cbn [performLcsDiff rows].
    set (paired := pairedRows textContent mode original revised).
    pose proof (length_filter_not ADDED paired).
    pose proof (length_filter_not DELETED paired).
    assert (length (filter (fun p => status p <> ADDED) paired) = length original) as Ho.
    { rewrite <- (length_map originalOf), <- (length_map Some original). f_equal.
      apply LcsFacts.run_original; intros; cbn; try done.
      - destruct (matchStatus_cases textContent mode a b) as [-> | ->]; done.
      - by intros []. }
    assert (length (filter (fun p => status p <> DELETED) paired) = length revised) as Hr.
    { rewrite <- (length_map revisedOf), <- (length_map Some revised). f_equal.
      apply LcsFacts.run_revised; intros; cbn; try done.
      - destruct (matchStatus_cases textContent mode a b) as [-> | ->]; done.
      - by intros []. }
    lia. }
  destruct Hne as [Hne | Hne]; [destruct original|destruct revised];
    try done; cbn [length] in *; lia.
Qed.

Lemma filter_changed_nil (l : list ComparisonRowPair) :
  filter (fun r => status r <> UNCHANGED) l = [] <->
  countStatus ADDED l = 0 /\ countStatus DELETED l = 0 /\ countStatus MODIFIED l = 0.
Proof.
  pose proof (countStatus_total l) as Htotal.
  pose proof (length_filter_not UNCHANGED l) as Hsplit.
  split.
  - intros Hnil. rewrite Hnil in Hsplit. cbn [length] in Hsplit. lia.
  - intros (Ha & Hd & Hm). apply length_zero_iff_nil. lia.
Qed.

(** X18 -- When the summary service is called.  When [handleCompare]
    produces a result, no request is sent to the summary service exactly
    when the three counts of the summary are zero; a request carries the
    summary of the result and a sample of one to ten pairs, none of them
    UNCHANGED, that starts the list of changed pairs. *)
Theorem handleCompare_summary_request
    (originalRawData revisedRawData : list (list string))
    (mode : Mode) (result : ComparisonOutput)
    (request : option (DiffSummary * list ComparisonRowPair)) :
  handleCompare textContent originalRawData revisedRawData mode
  = ComparisonDone result request ->
  (request = None <-> diffSummary result = Summary 0 0 0) /\
  (forall summary sample,
      request = Some (summary, sample) ->
      summary = diffSummary result /\
      0 < length sample <= 10 /\
      Forall (fun r => status r <> UNCHANGED) sample /\
      sample `prefix_of` filter (fun r => status r <> UNCHANGED) (rows result)).
Proof.
  intros (original & revised & _ & _ & _ & -> & ->)%handleCompare_done.
  set (result := performLcsDiff textContent original revised mode).
  set (changed := filter (fun r => status r <> UNCHANGED) (rows result)).
  assert (changed = [] <-> diffSummary result = Summary 0 0 0) as Hnil.
  { unfold changed. rewrite filter_changed_nil. cbn [result performLcsDiff rows diffSummary].
    split; [by intros (-> & -> & ->)|by intros [= -> -> ->]]. }
  split.
  - rewrite <- Hnil. destruct changed as [|c changed']; [done|].
    cbn. split; done.
  - intros summary sample Hreq.
    destruct (0 <? length (take 10 changed)) eqn:Hpos; [|done].
    injection Hreq as <- <-. apply Nat.ltb_lt in Hpos.
    split; [done|]. split; [split; [done|rewrite length_take; lia]|].
    split.
    + apply Forall_take. unfold changed.
      apply Forall_forall. intros r Hr. by apply list_elem_of_filter in Hr as [? _].
    + apply prefix_take.
Qed.

End Caller.

(** ** Reconstruction: continuation rows after a step are absorbed *)

Section Absorbed.

Variable textContent : string -> string.

Local Abbreviation clean := (getCleanTextContent textContent).





Section Merge.

Variable cleanHeaders : list string.
Variable structured : list RowData.



End Merge.


End Absorbed.

(** ** The keys of the pairs are distinct *)

Section Keys.

Lemma pretty_N_go_noDash (x : N) (s : string) :
  hasDash s = false -> hasDash (pretty_N_go x s) = false.
Proof.
  revert s. induction (N.lt_wf_0 x) as [x _ IH]; intros s Hs.
  assert (x = 0 \/ 0 < x)%N as [->|Hx] by lia.
  - by rewrite pretty_N_go_0.
  - rewrite pretty_N_go_step by done. apply IH; [by apply N.div_lt|].
    cbn [hasDash]. rewrite Hs, orb_false_r.
    unfold pretty_N_char. by repeat case_match.
Qed.

Lemma pretty_nat_noDash (n : nat) : hasDash (pretty n) = false.
Proof.
  unfold pretty, pretty_nat, pretty, pretty_N.
  case_decide; [done|]. by apply pretty_N_go_noDash.
Qed.

Lemma dash_split (u u' v v' : string) :
  hasDash u = false -> hasDash u' = false ->
  u +:+ "-" +:+ v = u' +:+ "-" +:+ v' -> u = u' /\ v = v'.
Proof.
  revert u'. induction u as [|c u IH]; intros [|c' u'] Hu Hu';
    rewrite ?JsFacts.app_cons, ?JsFacts.app_nil_l; intros H.
  - by injection H as ->.
  - injection H as <- _. cbn in Hu'. done.
  - injection H as -> _. cbn in Hu. done.
  - injection H as -> H. cbn [hasDash] in Hu, Hu'.
    apply orb_false_elim in Hu as [_ Hu], Hu' as [_ Hu'].
    by destruct (IH u' Hu Hu' H) as [-> ->].
Qed.

Lemma matchKey_inj (i j i' j' : nat) :
  "match-" +:+ pretty i +:+ "-" +:+ pretty j
  = "match-" +:+ pretty i' +:+ "-" +:+ pretty j' ->
  i = i' /\ j = j'.
Proof.
  intros H. apply JsonFacts.app_inv_head in H.
  apply dash_split in H as [Hi Hj]; [|apply pretty_nat_noDash..].
  by apply (inj pretty) in Hi, Hj.
Qed.

Lemma revisedKey_inj (j j' : nat) :
  "revised-" +:+ pretty j = "revised-" +:+ pretty j' -> j = j'.
Proof. intros H. apply JsonFacts.app_inv_head in H. by apply (inj pretty) in H. Qed.

Lemma originalKey_inj (i i' : nat) :
  "original-" +:+ pretty i = "original-" +:+ pretty i' -> i = i'.
Proof. intros H. apply JsonFacts.app_inv_head in H. by apply (inj pretty) in H. Qed.

Lemma keysAbove_weaken (i j i' j' : nat) (acc : list ComparisonRowPair) :
  i' <= i -> j' <= j -> keysAbove i j acc -> keysAbove i' j' acc.
Proof.
  intros Hi Hj. unfold keysAbove. intros H. eapply Forall_impl; [exact H|]. clear H.
  intros p [(a & b & ? & ? & ?)|[(b & ? & ?)|(a & ? & ?)]].
  - left. exists a, b. repeat split; [lia..|done].
  - right. left. exists b. split; [lia|done].
  - right. right. exists a. split; [lia|done].
Qed.

Variable textContent : string -> string.

Lemma backtrackLoop_keys (mode : Mode) (original revised : list RowData)
    (dp : list (list nat)) (fuel i j : nat) (acc : list ComparisonRowPair) :
  i <= length original -> j <= length revised ->
  keysAbove i j acc -> NoDup (map key acc) ->
  NoDup (map key
           (Lcs.out (Lcs.backtrackLoop (areRowsEqual textContent mode)
                       (matchedPair textContent mode) addedPair deletedPair
                       original revised fuel dp (Lcs.State i j acc)))).
Proof.
  revert i j acc. induction fuel as [|fuel IH]; intros i j acc Hi Hj Habove Hnodup;
    [done|].
  cbn [Lcs.backtrackLoop].
  destruct (LcsFacts.backtrackStep_cases (areRowsEqual textContent mode)
              (matchedPair textContent mode) addedPair deletedPair
              original revised dp i j acc Hi Hj)
    as [(-> & -> & ->)|[(a & b & Hi0 & Hj0 & Ha & Hb & Heq & ->)
       |[(b & Hj0 & Hb & ->)|(a & Hi0 & Ha & ->)]]]; [done|..].
  - apply IH; [lia|lia| |].
    + constructor; [|by apply (keysAbove_weaken i j); [lia..|]].
      left. exists i, j. repeat split; lia.
    + cbn [map]. constructor; [|done].
      intros Hin. apply list_elem_of_In, in_map_iff in Hin as (p & Hkey & Hp).
      apply list_elem_of_In in Hp.
      apply (proj1 (Forall_forall _ _) Habove) in Hp
        as [(a' & b' & ? & ? & Hk)|[(b' & ? & Hk)|(a' & ? & Hk)]];
        rewrite Hk in Hkey; cbn [key matchedPair] in Hkey.
      * apply matchKey_inj in Hkey. lia.
      * revert Hkey. rewrite !JsFacts.app_cons. discriminate.
      * revert Hkey. rewrite !JsFacts.app_cons. discriminate.
  - apply IH; [lia|lia| |].
    + constructor; [|by apply (keysAbove_weaken i j); [lia..|]].
      right. left. exists j. split; [lia|reflexivity].
    + cbn [map]. constructor; [|done].
      intros Hin. apply list_elem_of_In, in_map_iff in Hin as (p & Hkey & Hp).
      apply list_elem_of_In in Hp.
      apply (proj1 (Forall_forall _ _) Habove) in Hp
        as [(a' & b' & ? & ? & Hk)|[(b' & ? & Hk)|(a' & ? & Hk)]];
        rewrite Hk in Hkey; cbn [key addedPair] in Hkey.
      * revert Hkey. rewrite !JsFacts.app_cons. discriminate.
      * apply revisedKey_inj in Hkey. lia.
      * revert Hkey. rewrite !JsFacts.app_cons. discriminate.
  - apply IH; [lia|lia| |].
    + constructor; [|by apply (keysAbove_weaken i j); [lia..|]].
      right. right. exists i. split; [lia|reflexivity].
    + cbn [map]. constructor; [|done].
      intros Hin. apply list_elem_of_In, in_map_iff in Hin as (p & Hkey & Hp).
      apply list_elem_of_In in Hp.
      apply (proj1 (Forall_forall _ _) Habove) in Hp
        as [(a' & b' & ? & ? & Hk)|[(b' & ? & Hk)|(a' & ? & Hk)]];
        rewrite Hk in Hkey; cbn [key deletedPair] in Hkey.
      * revert Hkey. rewrite !JsFacts.app_cons. discriminate.
      * revert Hkey. rewrite !JsFacts.app_cons. discriminate.
      * apply originalKey_inj in Hkey. lia.
Qed.

(** X20 -- The keys are distinct.  No two pairs of a result of the aligner
    have the same key. *)
Theorem performLcsDiff_keys_distinct (original revised : list RowData) (mode : Mode) :
  NoDup (map key (rows (performLcsDiff textContent original revised mode))).
Proof.
  cbn [performLcsDiff rows]. unfold pairedRows, Lcs.run.
  apply backtrackLoop_keys; [lia|lia|constructor|constructor].
Qed.

End Keys.

(** ** The aligner matches as many pairs as can be matched *)

Section Optimal.

Context {A : Type}.
Variable equal : A -> A -> bool.

Local Abbreviation L := (Lcs.lcsRev equal).

Lemma lcsRev_empty_l (ys : list A) : L [] ys = 0.
Proof. done. Qed.

Lemma lcsRev_empty_r (xs : list A) : L xs [] = 0.
Proof. by destruct xs. Qed.

Lemma lcsRev_cons (x y : A) (xs ys : list A) :
  L (x :: xs) (y :: ys)
  = if equal x y then L xs ys + 1 else Nat.max (L xs (y :: ys)) (L (x :: xs) ys).
Proof. done. Qed.

(** One more element on a side adds nothing or one. *)
Lemma lcsRev_bounds (n : nat) (xs ys : list A) :
  length xs + length ys <= n ->
  (forall x, L xs ys <= L (x :: xs) ys <= L xs ys + 1) /\
  (forall y, L xs ys <= L xs (y :: ys) <= L xs ys + 1).
Proof.
  revert xs ys. induction n as [|n IH]; intros xs ys Hn.
  - destruct xs, ys; cbn [length] in Hn; try lia. split; intros z; cbn; lia.
  - split.
    + intros x. destruct ys as [|y ys'].
      * rewrite !lcsRev_empty_r. lia.
      * cbn [length] in Hn.
        destruct (IH xs ys' ltac:(lia)) as [Hl Hr].
        specialize (Hl x). specialize (Hr y).
        rewrite lcsRev_cons. destruct (equal x y); lia.
    + intros y. destruct xs as [|x xs'].
      * rewrite !lcsRev_empty_l. lia.
      * cbn [length] in Hn.
        destruct (IH xs' ys ltac:(lia)) as [Hl Hr].
        specialize (Hl x). specialize (Hr y).
        rewrite lcsRev_cons. destruct (equal x y); lia.
Qed.

(** No matching that keeps the order has more pairs than the count. *)
Lemma common_lcsRev (xs ys : list A) (k : nat) :
  common equal xs ys k -> k <= L (reverse xs) (reverse ys).
Proof.
  induction 1 as [|xs ys x y k Heq _ IH|xs ys x k _ IH|xs ys y k _ IH].
  - done.
  - rewrite !reverse_snoc, lcsRev_cons, Heq. lia.
  - rewrite reverse_snoc.
    destruct (lcsRev_bounds _ (reverse xs) (reverse ys) (Nat.le_refl _)) as [Hl _].
    specialize (Hl x). lia.
  - rewrite reverse_snoc.
    destruct (lcsRev_bounds _ (reverse xs) (reverse ys) (Nat.le_refl _)) as [_ Hr].
    specialize (Hr y). lia.
Qed.

Lemma common_table (original revised : list A) (k : nat) :
  common equal original revised k ->
  k <= Lcs.cell (Lcs.table equal original revised) (length original) (length revised).
Proof.
  intros Hk. rewrite LcsFacts.table_count by lia. unfold Lcs.count.
  rewrite !firstn_all. by apply common_lcsRev.
Qed.

End Optimal.

(** X21 -- The aligner matches as many pairs as can be matched.  Whenever
    [k] pairs of an original and a revised record that are equal under the
    oracle can be chosen in the order of both sequences, the result of the
    aligner has at least [k] pairs that are neither ADDED nor DELETED. *)
Theorem performLcsDiff_most_matches (textContent : string -> string)
    (original revised : list RowData) (mode : Mode) (k : nat) :
  common (areRowsEqual textContent mode) original revised k ->
  k <= length (filter (fun p => status p <> ADDED /\ status p <> DELETED)
                      (rows (performLcsDiff textContent original revised mode))).
Proof.
  intros Hk. apply common_table in Hk.
  cbn [performLcsDiff rows]. unfold pairedRows.
  rewrite (LcsMore.run_matches (areRowsEqual textContent mode) (matchedPair textContent mode)
             addedPair deletedPair original revised
             (fun p => status p <> ADDED /\ status p <> DELETED)); [done|..].
  - intros i j a b. cbn.
    destruct (matchStatus_cases textContent mode a b) as [-> | ->]; done.
  - intros j b. by intros [? _].
  - intros i a. by intros [_ ?].
Qed.

(** X22 -- The word diff keeps as many tokens as can be kept.  Whenever [k]
    tokens of the original text can be paired with identical tokens of the
    revised text in the order of both texts, the word diff has at least [k]
    COMMON segments. *)
Theorem createDiff_most_common (original revised : string) (k : nat) :
  common String.eqb (Tokens.words original) (Tokens.words revised) k ->
  k <= length (filter (fun d => type d = DiffType.COMMON) (createDiff original revised)).
Proof.
  intros Hk. apply common_table in Hk. unfold createDiff.
  rewrite (LcsMore.run_matches String.eqb commonSegment addedSegment deletedSegment
             (Tokens.words original) (Tokens.words revised)
             (fun d => type d = DiffType.COMMON)); done.
Qed.

(** X23 -- Normalized texts and signatures are trimmed: trimming the result
    of [getCleanTextContent] or of [getFirstTwoLinesKey] again changes
    nothing. *)
Theorem normalized_trimmed (textContent : string -> string) (html : string) :
  Js.trim (getCleanTextContent textContent html) = getCleanTextContent textContent html /\
  Js.trim (getFirstTwoLinesKey textContent html) = getFirstTwoLinesKey textContent html.
Proof.
  split; [apply getCleanTextContent_trimmed|apply getFirstTwoLinesKey_trimmed].
Qed.

(** ** The further properties on sample data *)

(** A section heading and a step, under BY_CONTENT_SIGNATURE. *)
Lemma performLcsDiff_self_content_sample :
  rows (performLcsDiff stripTags [sectionRow; stepOne] [sectionRow; stepOne] content)
  = imap (fun k a =>
            RowPair UNCHANGED (Some a) (Some a)
                    ("match-" +:+ pretty (S k) +:+ "-" +:+ pretty (S k)))
         [sectionRow; stepOne] /\
  diffSummary (performLcsDiff stripTags [sectionRow; stepOne] [sectionRow; stepOne] content)
  = Summary 0 0 0.
Proof.
  apply (performLcsDiff_self_content stripTags [sectionRow; stepOne]).
  constructor; [left; vm_compute; reflexivity|].
  constructor; [right; vm_compute; discriminate|constructor].
Defined.

(** A step without procedure against itself. *)
Lemma performLcsDiff_self_no_signature_sample :
  rows (performLcsDiff stripTags [stepNoProcedure] [stepNoProcedure] content)
  = [RowPair DELETED (Some stepNoProcedure) None "original-1";
     RowPair ADDED None (Some stepNoProcedure) "revised-1"] /\
  diffSummary (performLcsDiff stripTags [stepNoProcedure] [stepNoProcedure] content)
  = Summary 1 1 0.
Proof.
  apply (performLcsDiff_self_no_signature stripTags stepNoProcedure);
    vm_compute; reflexivity.
Defined.

(** Three spellings of identifier 1. *)
Lemma areRowsEqual_trans_sample :
  areRowsEqual stripTags step stepOne stepOneSpaced = true.
Proof.
  apply (areRowsEqual_trans stripTags step stepOne stepOnePadded stepOneSpaced);
    vm_compute; reflexivity.
Defined.

Lemma processRawData_gridContinuation :
  processRawData stripTags gridContinuation = Returns sampleOriginal.
Proof. vm_compute. reflexivity. Qed.

Lemma processRawData_records_sample :
  exists picked,
    picked `sublist_of` seq 0 (length (structuredData stripTags gridContinuation)) /\
    Forall2 (fun r record =>
               exists row,
                 structuredData stripTags gridContinuation !! r = Some row /\
                 extends row record /\
                 record !! "Step Order" = row !! "Step Order" /\
                 (record = row \/ isTestStepRow stripTags row = true))
            picked sampleOriginal.
Proof.
  apply (processRawData_records stripTags gridContinuation sampleOriginal).
  apply processRawData_gridContinuation.
Defined.


Lemma processRawData_above_header_sample :
  processRawData stripTags ([["Test case 12"]] ++ headerRow :: [["1"; "A"; ""]])
  = processRawData stripTags (headerRow :: [["1"; "A"; ""]]) /\
  processRawData stripTags ([["Test case 12"]] ++ [headerRow]) = Returns [].
Proof.
  apply (processRawData_above_header stripTags [["Test case 12"]] headerRow [["1"; "A"; ""]]).
  - intros row Hrow.
    repeat (apply elem_of_cons in Hrow as [-> | Hrow]; [reflexivity|]).
    by apply elem_of_nil in Hrow.
  - reflexivity.
Defined.


Lemma handleCompare_sample :
  handleCompare stripTags gridContinuation gridProcedureOnly step
  = ComparisonDone sampleResult sampleRequest.
Proof. vm_compute. reflexivity. Qed.

Lemma handleCompare_not_empty_sample : 0 < length (rows sampleResult).
Proof.
  apply (handleCompare_not_empty stripTags gridContinuation gridProcedureOnly step
           sampleResult sampleRequest).
  apply handleCompare_sample.
Defined.

Lemma handleCompare_summary_request_sample :
  (sampleRequest = None <-> diffSummary sampleResult = Summary 0 0 0) /\
  (forall summary sample,
      sampleRequest = Some (summary, sample) ->
      summary = diffSummary sampleResult /\
      0 < length sample <= 10 /\
      Forall (fun r => status r <> UNCHANGED) sample /\
      sample `prefix_of` filter (fun r => status r <> UNCHANGED) (rows sampleResult)).
Proof.
  apply (handleCompare_summary_request stripTags gridContinuation gridProcedureOnly step
           sampleResult sampleRequest).
  apply handleCompare_sample.
Defined.

(** One record against the same record with a padded identifier: one pair
    can be matched. *)
Lemma performLcsDiff_most_matches_sample :
  1 <= length (filter (fun p => status p <> ADDED /\ status p <> DELETED)
                      (rows (performLcsDiff stripTags [stepOne] [stepOneSpaced] step))).
Proof.
  apply (performLcsDiff_most_matches stripTags [stepOne] [stepOneSpaced] step 1).
  apply (common_match _ [] [] stepOne stepOneSpaced 0); [vm_compute; reflexivity|].
  apply common_nil.
Defined.

(** One token that stays. *)
Lemma createDiff_most_common_sample :
  1 <= length (filter (fun d => type d = DiffType.COMMON) (createDiff "fox" "fox")).
Proof.
  apply (createDiff_most_common "fox" "fox" 1).
  apply (common_match _ [] [] "fox" "fox" 0); [reflexivity|].
  apply common_nil.
Defined.
